(** * LinuxForMac: the distro selector and the container launcher

    A shallow embedding of [selectDistro], [CreatePersistentVolume],
    [initializeVM] and [main] of the Go program, with the calls into the
    operating system recorded as events and answered by a [host] record. *)

From Stdlib Require Import ZArith Lia.
From Stdlib Require Import Strings.Ascii Strings.String Strings.Byte.
From stdpp Require Import base option list strings gmap pretty.

Local Open Scope Z_scope.

(** ** Errors

    A Go [error] value.  [ENOENT] stands for the errors on which
    [os.IsNotExist] answers true, [OSError] for every other error coming out
    of the runtime, [Errorf] for [fmt.Errorf] without a [%w] verb and [Wrap]
    for [fmt.Errorf(prefix + "%w", cause)]. *)

Inductive error : Type :=
| ENOENT
| OSError (msg : string)
| Errorf (msg : string)
| Wrap (prefix : string) (cause : error).

Fixpoint Error (e : error) : string :=
  match e with
  | ENOENT => "no such file or directory"
  | OSError msg => msg
  | Errorf msg => msg
  | Wrap prefix cause => prefix +:+ Error cause
  end.

Definition Unwrap (e : error) : option error :=
  match e with
  | Wrap _ cause => Some cause
  | _ => None
  end.

Definition IsNotExist (e : error) : bool :=
  match e with
  | ENOENT => true
  | _ => false
  end.

(** ** The world the program runs in *)

Inductive term_state := Cooked | Raw.

Inductive read_result :=
| ReadOk (data : list byte)
| ReadErr (e : error).

Inductive node := Dir | File.

Record user := { Username : string; Uid : string; Gid : string }.

(** What the program changes: the terminal mode of standard input, the
    reads still to come from it, and the directory tree keyed by path. *)
Record world := {
  tty : term_state;
  stdin : list read_result;
  nodes : gmap string node;
}.

(** What the program only asks about: the platform, whether [term.MakeRaw]
    fails, [os.UserHomeDir], the errors [os.Stat] and [mkdir] give on a
    path apart from what the tree says, the output and error of a command
    run through [exec.Command] (by its argument vector), the result of
    [writeEmbeddedFiles] and [user.Current]. *)
Record host := {
  GOOS : string;
  GOARCH : string;
  makeRaw_err : option error;
  homeDir : string + error;
  stat_err : string -> option error;
  mkdir_err : string -> option error;
  run : list string -> string * option error;
  embeddedFiles : string + error;
  currentUser : user + error;
}.

(** The calls the program makes, in order: on the terminal, on standard
    input and output ([fmt.Print*]), on the logger ([log.Println] and
    [log.Fatal] with their operands, [log.Printf] and [log.Fatalf] with the
    format and its operands, errors by their [Error()] text), commands run,
    and calls on the file system. *)
Inductive event :=
| EvMakeRaw
| EvRestore (oldState : term_state)
| EvRead
| EvPrint (s : string)
| EvLogln (operands : list string)
| EvLogf (format : string) (operands : list string)
| EvRun (argv : list string)
| EvStat (path : string)
| EvMkdir (path : string)
| EvRemoveAll (path : string).

(** How a call ends: it returns, the process exits ([log.Fatal]), it
    panics, or it waits for input that never comes. *)
Inductive outcome (A : Type) :=
| Returned (a : A)
| Exited (code : Z)
| Panicked
| Blocked.
Arguments Returned {A} a.
Arguments Exited {A} code.
Arguments Panicked {A}.
Arguments Blocked {A}.

Definition M (A : Type) : Type := world -> list event * world * outcome A.

Definition M_ret {A} (a : A) : M A := fun w => ([], w, Returned a).

Definition M_bind {A B} (m : M A) (k : A -> M B) : M B := fun w =>
  match m w with
  | (evs, w1, Returned a) =>
      let '(evs', w2, o) := k a w1 in (evs ++ evs', w2, o)
  | (evs, w1, Exited c) => (evs, w1, Exited c)
  | (evs, w1, Panicked) => (evs, w1, Panicked)
  | (evs, w1, Blocked) => (evs, w1, Blocked)
  end.

#[global] Instance M_mret : MRet M := @M_ret.
#[global] Instance M_mbind : MBind M := fun A B k m => M_bind m k.

Definition emit (e : event) : M unit := fun w => ([e], w, Returned tt).
Definition exit {A} (code : Z) : M A := fun w => ([], w, Exited code).

(** [defer cleanup; body]: the deferred call runs when the body returns or
    panics; [os.Exit] skips it and a body that never returns never reaches
    it. *)
Definition defer {A} (cleanup : M unit) (body : M A) : M A := fun w =>
  match body w with
  | (evs, w1, Returned a) =>
      let '(evs', w2, _) := cleanup w1 in (evs ++ evs', w2, Returned a)
  | (evs, w1, Panicked) =>
      let '(evs', w2, _) := cleanup w1 in (evs ++ evs', w2, Panicked)
  | r => r
  end.

Definition set_tty (m : term_state) (w : world) : world :=
  {| tty := m; stdin := stdin w; nodes := nodes w |}.
Definition set_stdin (rs : list read_result) (w : world) : world :=
  {| tty := tty w; stdin := rs; nodes := nodes w |}.
Definition set_nodes (ns : gmap string node) (w : world) : world :=
  {| tty := tty w; stdin := stdin w; nodes := ns |}.

(** ** Package-level variables *)

Definition distroPath : gmap string string :=
  list_to_map
    [ ("ubuntu", "docker.io/library/ubuntu");
      ("arch", "docker.io/archlinux/archlinux");
      ("fedora", "docker.io/library/fedora:43");
      ("debian", "docker.io/library/debian:trixie");
      ("alpine", "docker.io/library/alpine:latest") ]%string.

Definition distroList : list string :=
  ["ubuntu"; "debian"; "arch"; "fedora"; "alpine"]%string.

(** ** Control characters of the menu *)

Definition CR : string := String "013"%char "".
Definition LF : string := String "010"%char "".
Definition ESC : string := String "027"%char "".
Definition CRLF : string := CR +:+ LF.

(** ["\r\033[J"]: back to column 0 and clear to the end of the screen. *)
Definition clearDown : string := CR +:+ ESC +:+ "[J".

(** ["\033[%dA"]: cursor up [n] lines. *)
Definition cursorUp (n : Z) : string := ESC +:+ "[" +:+ pretty n +:+ "A".

(** The three-byte read buffer [buf]. *)
Record buffer := { b0 : byte; b1 : byte; b2 : byte }.

Definition zeroBuf : buffer := {| b0 := x00; b1 := x00; b2 := x00 |}.

(** [os.Stdin.Read(buf)] stores at most [len(buf) = 3] bytes at the front of
    [buf] and leaves the rest of it as it was.  An entry of the script is
    what one call has at hand; [nread] is the [n] the call returns. *)
Definition fill (data : list byte) (buf : buffer) : buffer :=
  match data with
  | [] => buf
  | [x] => {| b0 := x; b1 := b1 buf; b2 := b2 buf |}
  | [x; y] => {| b0 := x; b1 := y; b2 := b2 buf |}
  | x :: y :: z :: _ => {| b0 := x; b1 := y; b2 := z |}
  end.

Definition nread (data : list byte) : Z := Z.of_nat (length (take 3 data)).

(** [l[i]] with Go's bounds check: [None] is the index-out-of-range panic. *)
Definition index {A} (l : list A) (i : Z) : option A :=
  if decide (0 <= i) then l !! Z.to_nat i else None.

Section Menu.
(** [selectDistro] reads the package-level [distroList]. *)
Variable choices : list string.

Definition len : Z := Z.of_nat (length choices).

Definition renderLine (selected : Z) (i : nat) (d : string) : event :=
  if decide (Z.of_nat i = selected)
  then EvPrint ("  " +:+ ESC +:+ "[1;36m> " +:+ d +:+ ESC +:+ "[0m" +:+ CRLF)
  else EvPrint ("    " +:+ d +:+ CRLF).

Definition render (selected : Z) : list event :=
  [EvPrint clearDown;
   EvPrint ("Select a Linux distribution:" +:+ CRLF +:+ CRLF)]
  ++ imap (renderLine selected) choices
  ++ [EvPrint (CRLF +:+ "Use arrow keys to navigate, Enter to select, q to quit." +:+ CRLF)].

Definition up (selected : Z) : Z :=
  if decide (selected > 0) then selected - 1 else selected.

Definition down (selected : Z) : Z :=
  if decide (selected < len - 1) then selected + 1 else selected.

(** What one pass of the loop body decides after a successful read. *)
Inductive action :=
| Cancel
| Choose
| Stay (selected : Z).

Definition dispatch (n : Z) (buf : buffer) (selected : Z) : action :=
  if n =? 1 then
    match b0 buf with
    | "q"%byte | "Q"%byte => Cancel
    | x0d => Choose
    | "k"%byte | "K"%byte => Stay (up selected)
    | "j"%byte | "J"%byte => Stay (down selected)
    | _ => Stay selected
    end
  else if (n =? 3) && Byte.eqb (b0 buf) x1b && Byte.eqb (b1 buf) "["%byte then
    match b2 buf with
    | "A"%byte => Stay (up selected)
    | "B"%byte => Stay (down selected)
    | _ => Stay selected
    end
  else Stay selected.

(** One pass of the loop body, from the cursor-up print to the re-render:
    either the loop goes on with a cursor and a buffer, or the function
    returns (or panics on a bad index). *)
Definition pass (r : read_result) (selected : Z) (buf : buffer)
  : list event * (Z * buffer + outcome (string * option error)) :=
  let top := [EvPrint (cursorUp (len + 4)); EvRead] in
  match r with
  | ReadErr e =>
      (top, inr (Returned (""%string, Some (Wrap "read input: " e))))
  | ReadOk data =>
      let buf' := fill data buf in
      match dispatch (nread data) buf' selected with
      | Cancel =>
          (top ++ [EvPrint clearDown],
           inr (Returned (""%string, Some (Errorf "cancelled"))))
      | Choose =>
          (top ++ [EvPrint clearDown],
           inr match index choices selected with
               | Some d => Returned (d, None)
               | None => Panicked
               end)
      | Stay selected' =>
          (top ++ render selected', inl (selected', buf'))
      end
  end.

(** The [for] loop, one read of the script per pass.  When the script is
    used up the loop is waiting in [Read]. *)
Fixpoint menuLoop (rs : list read_result) (selected : Z) (buf : buffer)
  : list event * list read_result * outcome (string * option error) :=
  match rs with
  | [] => ([EvPrint (cursorUp (len + 4)); EvRead], [], Blocked)
  | r :: rs' =>
      match pass r selected buf with
      | (evs, inl (selected', buf')) =>
          let '(evs', rest, o) := menuLoop rs' selected' buf' in
          (evs ++ evs', rest, o)
      | (evs, inr o) => (evs, rs', o)
      end
  end.

(** The loop states the session can be in when it is about to read. *)
Inductive reachable : Z -> buffer -> Prop :=
| reach_init : reachable 0 zeroBuf
| reach_pass r selected buf evs selected' buf' :
    reachable selected buf ->
    pass r selected buf = (evs, inl (selected', buf')) ->
    reachable selected' buf'.

Definition termRestore (oldState : term_state) : M unit := fun w =>
  ([EvRestore oldState], set_tty oldState w, Returned tt).

Definition menu : M (string * option error) := fun w =>
  let '(evs, rest, o) := menuLoop (stdin w) 0 zeroBuf in
  (render 0 ++ evs, set_stdin rest w, o).

Definition selectFrom (h : host) : M (string * option error) := fun w =>
  match makeRaw_err h with
  | Some e =>
      ([EvMakeRaw], w, Returned (""%string, Some (Wrap "enable raw mode: " e)))
  | None =>
      let oldState := tty w in
      let '(evs, w', o) := defer (termRestore oldState) menu (set_tty Raw w) in
      (EvMakeRaw :: evs, w', o)
  end.
End Menu.

Definition selectDistro : host -> M (string * option error) :=
  selectFrom distroList.

(** ** The persistent volume *)

(** [os.Stat]: [inl isDir] for an entry that exists, [inr err] otherwise. *)
Definition stat (h : host) (ns : gmap string node) (path : string) : bool + error :=
  match stat_err h path with
  | Some err => inr err
  | None =>
      match ns !! path with
      | Some Dir => inl true
      | Some File => inl false
      | None => inr ENOENT
      end
  end.

Definition Stat (h : host) (path : string) : M (bool + error) := fun w =>
  ([EvStat path], w, Returned (stat h (nodes w) path)).

(** [os.MkdirAll]: nothing to do for a directory that is there, an error
    for another kind of entry, a [mkdir] otherwise.  The tree is keyed by
    whole paths: the parents [MkdirAll] makes on the way are not tracked,
    nor what a failing call leaves behind. *)
Definition MkdirAll (h : host) (path : string) : M (option error) := fun w =>
  match stat h (nodes w) path with
  | inl true => ([], w, Returned None)
  | inl false => ([], w, Returned (Some (OSError "not a directory")))
  | inr _ =>
      match mkdir_err h path with
      | Some err => ([EvMkdir path], w, Returned (Some err))
      | None =>
          ([EvMkdir path], set_nodes (<[path := Dir]> (nodes w)) w, Returned None)
      end
  end.

Definition CreatePersistentVolume (h : host) (distro : string)
  : M (string * option error) :=
  let volumeName := distro +:+ "_Volume" in
  match homeDir h with
  | inr err => mret (""%string, Some (Wrap "get home dir: " err))
  | inl home =>
      let path := home +:+ "/" +:+ volumeName in
      emit (EvLogln ["Volume path:"; path]);;
      info ← Stat h path;
      match info with
      | inl isDir =>
          if negb isDir
          then mret (""%string,
                     Some (Errorf ("volume path exists but is not a directory: " +:+ path)))
          else mret (path, None)
      | inr err =>
          if negb (IsNotExist err)
          then mret (""%string, Some (Wrap "stat volume path: " err))
          else
            r ← MkdirAll h path;
            match r with
            | Some err => mret (""%string, Some (Wrap "create volume dir: " err))
            | None => mret (path, None)
            end
      end
  end.

(** ** Launching the container *)

Definition logFatal {A} (operands : list string) : M A :=
  emit (EvLogln operands);; exit 1.

Definition logFatalf {A} (format : string) (operands : list string) : M A :=
  emit (EvLogf format operands);; exit 1.

Definition isDigit (c : ascii) : bool :=
  (48 <=? nat_of_ascii c)%nat && (nat_of_ascii c <=? 57)%nat.

Definition digitsValue (cs : list ascii) : Z :=
  foldl (fun acc c => 10 * acc + (Z.of_nat (nat_of_ascii c) - 48)) 0 cs.

(** [strconv.Atoi]: an optional sign, then at least one decimal digit and
    nothing else; the value has to fit Go's 64-bit [int]. *)
Definition Atoi (s : string) : Z + error :=
  let cs := list_ascii_of_string s in
  let '(neg, ds) :=
    match cs with
    | "-"%char :: ds => (true, ds)
    | "+"%char :: ds => (false, ds)
    | _ => (false, cs)
    end in
  if bool_decide (ds = []) || negb (forallb isDigit ds)
  then inr (OSError "invalid syntax")
  else
    let v := if neg then - digitsValue ds else digitsValue ds in
    if (- 2 ^ 63 <=? v) && (v <? 2 ^ 63) then inl v
    else inr (OSError "value out of range").

(** The [which] loop over the known container tools. *)
Fixpoint probe (h : host) (systemContainer : list string) (present : list string)
  : M (list string) :=
  match systemContainer with
  | [] => mret present
  | container :: more =>
      let command := "which " +:+ container in
      emit (EvRun ["bash"; "-c"; command]);;
      match run h ["bash"; "-c"; command] with
      | (_, Some err) =>
          emit (EvLogf "%s not found: %v" [container; Error err]);;
          probe h more present
      | (out, None) =>
          emit (EvLogln [out]);;
          probe h more (present ++ [container])
      end
  end.

(** [writeEmbeddedFiles] is taken as one step of the host: the directory
    the build context was written to, or the error it gave up with. *)
Definition writeEmbeddedFiles (h : host) : M (string * option error) :=
  match embeddedFiles h with
  | inl tmpDir => mret (tmpDir, None)
  | inr err => mret (""%string, Some err)
  end.

(** [buildImage]; [filepath.Join] of the build directory and the file name
    is written with a slash. *)
Definition buildImage (h : host) (containerRuntime distro : string)
  : M (string * option error) :=
  let imageTag := "linuxformac-" +:+ distro in
  let inspect := [containerRuntime; "image"; "inspect"; imageTag] in
  emit (EvRun inspect);;
  match run h inspect with
  | (_, None) =>
      emit (EvLogf "Image %s already exists, reusing." [imageTag]);;
      mret (imageTag, None)
  | (_, Some _) =>
      emit (EvLogf "Building custom image %s..." [imageTag]);;
      ctx ← writeEmbeddedFiles h;
      match ctx with
      | (_, Some err) => mret (""%string, Some (Wrap "write build context: " err))
      | (buildCtx, None) =>
          defer (emit (EvRemoveAll buildCtx))
            (let dockerfile := "Dockerfile." +:+ distro in
             let build := [containerRuntime; "build"; "-t"; imageTag; "-f";
                           buildCtx +:+ "/" +:+ dockerfile; buildCtx] in
             emit (EvRun build);;
             match run h build with
             | (_, Some err) =>
                 mret (""%string,
                       Some (Wrap ("build image " +:+ imageTag +:+ ": ") err))
             | (_, None) =>
                 emit (EvLogf "Image %s built successfully." [imageTag]);;
                 mret (imageTag, None)
             end)
      end
  end.

(** The arguments of the [run] command up to the volume mount. *)
Definition baseArgs (distro username uid gid : string) : list string :=
  ["run"; "-it"; "--rm"; "--hostname"; distro;
   "-e"; "HOST_USER=" +:+ username;
   "-e"; "HOST_UID=" +:+ uid;
   "-e"; "HOST_GID=" +:+ gid;
   "-e"; "DISTRO_TYPE=" +:+ distro].

(** The mount of the home directory, on macOS only. *)
Definition homeMount (h : host) (username : string) : list string :=
  if String.eqb (GOOS h) "darwin" then
    match homeDir h with
    | inl home =>
        if negb (String.eqb username "")
        then ["-v"; home +:+ ":/home/" +:+ username]
        else []
    | inr _ => []
    end
  else [].

(** [initializeVM] from the volume on: the part after the user's ids have
    been checked. *)
Definition launch (h : host) (distro containerRuntime customImageTag : string)
    (u : user) : M (option error) :=
  vol ← CreatePersistentVolume h distro;
  let '(volName, volErr) := vol in
  let args := baseArgs distro (Username u) (Uid u) (Gid u) in
  args ←
    match volErr with
    | Some _ =>
        emit (EvLogln ["Cannot create volume. Skipping"]);;
        mret args
    | None =>
        emit (EvLogf "Attaching volume: %s to %s" [volName; customImageTag]);;
        mret (args ++ ["-v"; volName +:+ ":/data"])
    end;
  let args := args ++ homeMount h (Username u) in
  let args := args ++ [customImageTag] in
  emit (EvRun (containerRuntime :: args));;
  match run h (containerRuntime :: args) with
  | (_, Some err) => logFatalf "Failed to run VM due to error: %v" [Error err]
  | (_, None) => mret None
  end.

(** [initializeVM] up to the volume: the checks that end the process, and
    what the launch needs when they all pass. *)
Definition prepare (h : host) (distro : string) (testMode : bool)
  : M (string * string * user) :=
  (if String.eqb (GOOS h) "linux" then
     (if negb testMode
      then logFatal ["Operating System: Linux. Pass --test to run."]
      else mret tt);;
     emit (EvLogln ["Operating system: "; GOOS h]);;
     emit (EvLogln ["Architecture: "; GOARCH h])
   else if String.eqb (GOOS h) "windows" then
     logFatal ["Operating System: Windows. Use WSLv2."]
   else if String.eqb (GOOS h) "darwin" then
     emit (EvLogln ["Operating system: "; GOOS h]);;
     emit (EvLogln ["Architecture: "; GOARCH h])
   else mret tt);;
  match distroPath !! distro with
  | None =>
      logFatalf
        "unknown distro %q (supported: ubuntu, arch, fedora, debian, alpine)"
        [distro]
  | Some _ =>
      emit (EvLogln ["Checking system for container software...."]);;
      present ← probe h ["podman"; "docker"] [];
      match present with
      | [] =>
          logFatal
            ["No container runtime found (podman or docker). Install a container tool."]
      | containerRuntime :: _ =>
          emit (EvLogln ["Initializing"; distro]);;
          img ← buildImage h containerRuntime distro;
          match img with
          | (_, Some err) =>
              logFatalf "Failed to build custom image: %v" [Error err]
          | (customImageTag, None) =>
              emit (EvLogln ["Attempting to start VM...."]);;
              emit (EvLogln ["Running container in Interactive Mode."]);;
              match currentUser h with
              | inr err =>
                  logFatalf "Failed to get current user: %v" [Error err]
              | inl u =>
                  match Atoi (Uid u) with
                  | inr err =>
                      logFatalf "Non-numeric UID %q: %v" [Uid u; Error err]
                  | inl _ =>
                      match Atoi (Gid u) with
                      | inr err =>
                          logFatalf "Non-numeric GID %q: %v" [Gid u; Error err]
                      | inl _ => mret (containerRuntime, customImageTag, u)
                      end
                  end
              end
          end
      end
  end.

Definition initializeVM (h : host) (distro : string) (testMode : bool)
  : M (option error) :=
  p ← prepare h distro testMode;
  let '(containerRuntime, customImageTag, u) := p in
  launch h distro containerRuntime customImageTag u.

(** [main], given [os.Args]. *)
Definition main (h : host) (Args : list string) : M unit :=
  p ←
    match Args with
    | _ :: arg1 :: rest =>
        mret (arg1, existsb (String.eqb "--test") rest)
    | _ =>
        r ← selectDistro h;
        match r with
        | (_, Some err) => logFatalf "Distro selection: %v" [Error err]
        | (choice, None) => mret (choice, true)
        end
    end;
  let '(linuxDistro, testMode) := p in
  emit (EvPrint ("Linux Distro: " +:+ linuxDistro +:+ LF));;
  err ← initializeVM h linuxDistro testMode;
  match err with
  | Some e => emit (EvLogf "Error: %v" [Error e])
  | None => mret tt
  end.

(** ** Observations on a session *)

(** The calls that switch the terminal mode. *)
Definition termCall (e : event) : bool :=
  match e with
  | EvMakeRaw | EvRestore _ => true
  | _ => false
  end.

Definition isMkdir (e : event) : bool :=
  match e with
  | EvMkdir _ => true
  | _ => false
  end.

(** The reads a key press arrives as. *)
Definition downKeys : list (list byte) :=
  [["j"%byte]; ["J"%byte]; [x1b; "["%byte; "B"%byte]].

Definition upKeys : list (list byte) :=
  [["k"%byte]; ["K"%byte]; [x1b; "["%byte; "A"%byte]].

Definition quitKeys : list (list byte) := [["q"%byte]; ["Q"%byte]].

Definition enterKey : list byte := [x0d].

Definition press (keys : list (list byte)) (r : read_result) : Prop :=
  exists k, k ∈ keys /\ r = ReadOk k.

(** The single bytes the loop gives a meaning to. *)
Definition singleKeys : list byte :=
  ["q"; "Q"; x0d; "j"; "J"; "k"; "K"]%byte.

(** A read outside the enumerated tokens, by the bytes [Read] hands over:
    one byte that is no key, or two or three bytes that are not escape,
    bracket and one more. *)
Definition unrecognized (data : list byte) : Prop :=
  let got := take 3 data in
  (exists b, got = [b] /\ b ∉ singleKeys)
  \/ ((2 <= length got)%nat /\ forall c, got <> [x1b; "["%byte; c]).

Section Advance.
Variable choices : list string.

(** The passes over a run of reads none of which ends the session: the
    events they leave and the loop state after them. *)
Fixpoint advance (rs : list read_result) (selected : Z) (buf : buffer)
  : option (list event * Z * buffer) :=
  match rs with
  | [] => Some ([], selected, buf)
  | r :: rs' =>
      match pass choices r selected buf with
      | (evs, inl (selected', buf')) =>
          match advance rs' selected' buf' with
          | Some (evs', s, b) => Some (evs ++ evs', s, b)
          | None => None
          end
      | (_, inr _) => None
      end
  end.
End Advance.

(** The session gets to a read that fails. *)
Definition readFails (w : world) : Prop :=
  exists pre e rest,
    stdin w = pre ++ ReadErr e :: rest
    /\ is_Some (advance distroList pre 0 zeroBuf).

(** The failure of [selectDistro] with an error that wraps an I/O error. *)
Definition ioError (o : outcome (string * option error)) : Prop :=
  exists d err, o = Returned (d, Some err) /\ is_Some (Unwrap err).

Definition macHost : host :=
  {| GOOS := "darwin"; GOARCH := "arm64"; makeRaw_err := None;
     homeDir := inl "/Users/me"%string;
     stat_err := fun _ => None; mkdir_err := fun _ => None;
     run := fun _ => (""%string, None);
     embeddedFiles := inl "/tmp/linuxformac-build-1"%string;
     currentUser := inl {| Username := "me"; Uid := "501"; Gid := "20" |} |}.

Definition typed (rs : list read_result) : world :=
  {| tty := Cooked; stdin := rs; nodes := ∅ |}.

Definition arrowDown : read_result := ReadOk [x1b; "["%byte; "B"%byte].
Definition arrowUp : read_result := ReadOk [x1b; "["%byte; "A"%byte].
Definition enter : read_result := ReadOk enterKey.

(** The line feeds a string holds, and those a run of events prints. *)
Fixpoint lineFeeds (s : string) : nat :=
  match s with
  | EmptyString => 0
  | String c s' => (if Ascii.eqb c "010"%char then 1 else 0) + lineFeeds s'
  end%nat.

Definition printedLines (evs : list event) : nat :=
  foldr (fun e n => match e with EvPrint s => lineFeeds s + n | _ => n end%nat)
    0%nat evs.

(** The path of the volume of a distro. *)
Definition volumePath (home distro : string) : string :=
  home +:+ "/" +:+ distro +:+ "_Volume".

(** The quiet exit on cancellation, for a session in world [w]: if the
    session is cancelled, [main] leaves when the selector is back, with
    nothing printed or logged after the terminal was restored. *)
Definition quietCancel (h : host) (Args : list string) (w : world) : Prop :=
  forall evs w' d,
    selectDistro h w = (evs, w', Returned (d, Some (Errorf "cancelled"))) ->
    exists o, main h Args w = (evs, w', o).

(** A host without a home directory: the volume cannot be made. *)
Definition homelessHost : host :=
  {| GOOS := "darwin"; GOARCH := "arm64"; makeRaw_err := None;
     homeDir := inr (OSError "$HOME is not defined");
     stat_err := fun _ => None; mkdir_err := fun _ => None;
     run := fun _ => (""%string, None);
     embeddedFiles := inl "/tmp/linuxformac-build-1"%string;
     currentUser := inl {| Username := "me"; Uid := "501"; Gid := "20" |} |}.

(** ** The first version of the launcher (main.go)

    [initializeVM] and [main] as they were before the menu: the image is
    pulled, not built, and the volume is made for the image's name.  Its
    [CreatePersistentVolume] and its [which] loop are those above, word for
    word. *)

Definition panic {A} : M A := fun w => ([], w, Panicked).

Module Legacy.

Definition distroPath : gmap string string :=
  list_to_map
    [ ("ubuntu", "ubuntu");
      ("arch", "base/arch");
      ("fedora", "fedora:43");
      ("debian", "debian:trixie");
      ("alpine", "alpine:latest") ]%string.

Definition initializeVM (h : host) (distro : string) : M (option error) :=
  (if String.eqb (GOOS h) "linux" then
     logFatal ["Operating System: Linux. Doing nothing."]
   else if String.eqb (GOOS h) "windows" then
     logFatal ["Operating System: Windows. Use WSLv2."]
   else if String.eqb (GOOS h) "darwin" then
     emit (EvLogln ["Operating system: "; GOOS h]);;
     emit (EvLogln ["Architecture: "; GOARCH h])
   else mret tt);;
  emit (EvLogln ["Checking system for container software...."]);;
  present ← probe h ["podman"; "docker"] [];
  match present with
  | [] =>
      logFatal
        ["No container runtime found (podman or docker). Install a container tool."]
  | tool :: _ =>
      emit (EvLogln ["Initializing "; distro]);;
      match distroPath !! distro with
      | None =>
          logFatalf
            "unknown distro %q (supported: ubuntu, arch, fedora, debian, alpine)"
            [distro]
      | Some image =>
          emit (EvLogln ["Pulling " +:+ image +:+ " using " +:+ tool]);;
          let pull := [tool; "pull"; image] in
          emit (EvRun pull);;
          match run h pull with
          | (_, Some err) =>
              logFatalf "Failed to pull image %s due to %v" [image; Error err]
          | (out, None) =>
              emit (EvLogln [out]);;
              emit (EvLogln ["Finished."]);;
              emit (EvLogln ["Attempting to start VM...."]);;
              emit (EvLogln ["Running container in Interactive Mode."]);;
              vol ← CreatePersistentVolume h image;
              let '(volName, e) := vol in
              argv ←
                match e with
                | Some _ =>
                    emit (EvLogln ["Cannot create volume.Skipping"]);;
                    mret [tool; "run"; "-it"; image; "/bin/bash"]
                | None =>
                    emit (EvLogln ["Attaching volume: " +:+ volName +:+ " to "
                                   +:+ image]);;
                    mret [tool; "run"; "-it"; "-v"; volName +:+ ":/data"; image;
                          "/bin/bash"]
                end;
              emit (EvRun argv);;
              match run h argv with
              | (_, Some err) =>
                  logFatalf "Failed to run VM due to error: %v" [Error err]
              | (_, None) => mret None
              end
          end
      end
  end.

(** [main], given [os.Args]; [os.Args[0]] of an empty [os.Args] is the
    index panic. *)
Definition main (h : host) (Args : list string) : M unit :=
  match Args with
  | [] => panic
  | [arg0] =>
      logFatalf "usage: %s <ubuntu|arch|fedora|debian|alpine>" [arg0]
  | _ :: linuxDistro :: _ =>
      if String.eqb linuxDistro "" then
        emit (EvPrint ("No Distro Detected. Input a distro" +:+ LF))
      else
        emit (EvPrint ("Linux Distro:  " +:+ linuxDistro +:+ LF));;
        err ← initializeVM h linuxDistro;
        match err with
        | Some e => emit (EvLogf "Error: %v" [Error e])
        | None => mret tt
        end
  end.

End Legacy.

(** ** The build context, file by file

    [writeEmbeddedFiles] with its steps spelled out.  The embedded tree is
    given as the calls [fs.WalkDir] makes to the callback, in order: the
    path, whether it is a directory, the error the walk hands over, and
    what [ReadFile] gives for it. *)

Module BuildContext.

Record dirEntry := {
  path : string;
  IsDir : bool;
  walkErr : option error;
  content : list byte + error;
}.

Record files := {
  MkdirTemp : string + error;
  walked : list dirEntry;
  writeFile_err : string -> option error;
}.

Inductive op :=
| OpMkdirTemp
| OpReadFile (name : string)
| OpWriteFile (dest : string) (data : list byte)
| OpRemoveAll (dir : string).

Definition isSlash (c : ascii) : bool := Ascii.eqb c "/"%char.

Fixpoint dropSlashes (cs : list ascii) : list ascii :=
  match cs with
  | c :: cs' => if isSlash c then dropSlashes cs' else cs
  | [] => []
  end.

Fixpoint element (cs : list ascii) : list ascii :=
  match cs with
  | c :: cs' => if isSlash c then [] else c :: element cs'
  | [] => []
  end.

(** [filepath.Base]: the last element of the path, trailing slashes
    dropped; a dot for the empty path and a slash for a path of slashes.
    The path is scanned from its end. *)
Definition Base (p : string) : string :=
  match p with
  | EmptyString => "."
  | _ =>
      let name := reverse (element (dropSlashes (reverse (list_ascii_of_string p)))) in
      match name with
      | [] => "/"
      | _ => string_of_list_ascii name
      end
  end.

(** The callback of the walk on one entry; [filepath.Join] of the
    directory and the name is written with a slash. *)
Definition visit (fs : files) (tmpDir : string) (d : dirEntry)
  : list op * option error :=
  match walkErr d with
  | Some err => ([], Some err)
  | None =>
      if IsDir d then ([], None)
      else
        match content d with
        | inr err =>
            ([OpReadFile (path d)],
             Some (Wrap ("read embedded " +:+ path d +:+ ": ") err))
        | inl data =>
            let name := Base (path d) in
            let dest := tmpDir +:+ "/" +:+ name in
            match writeFile_err fs dest with
            | Some err =>
                ([OpReadFile (path d); OpWriteFile dest data],
                 Some (Wrap ("write " +:+ dest +:+ ": ") err))
            | None => ([OpReadFile (path d); OpWriteFile dest data], None)
            end
        end
  end.

(** [fs.WalkDir]: the walk stops at the first error of the callback. *)
Fixpoint WalkDir (fs : files) (tmpDir : string) (ds : list dirEntry)
  : list op * option error :=
  match ds with
  | [] => ([], None)
  | d :: ds' =>
      match visit fs tmpDir d with
      | (ops, Some err) => (ops, Some err)
      | (ops, None) =>
          let '(ops', r) := WalkDir fs tmpDir ds' in (ops ++ ops', r)
      end
  end.

Definition writeEmbeddedFiles (fs : files) : list op * (string * option error) :=
  match MkdirTemp fs with
  | inr err => ([OpMkdirTemp], (""%string, Some (Wrap "create temp dir: " err)))
  | inl tmpDir =>
      match WalkDir fs tmpDir (walked fs) with
      | (ops, Some err) =>
          (OpMkdirTemp :: ops ++ [OpRemoveAll tmpDir],
           (""%string, Some (Wrap "extract embedded files: " err)))
      | (ops, None) => (OpMkdirTemp :: ops, (tmpDir, None))
      end
  end.

(** The copy the callback makes of an entry, if it makes one. *)
Definition copyOf (tmpDir : string) (d : dirEntry) : option op :=
  if IsDir d then None
  else
    match content d with
    | inl data => Some (OpWriteFile (tmpDir +:+ "/" +:+ Base (path d)) data)
    | inr _ => None
    end.

Definition isWrite (o : op) : bool :=
  match o with
  | OpWriteFile _ _ => true
  | _ => false
  end.

Definition isRemove (o : op) : bool :=
  match o with
  | OpRemoveAll _ => true
  | _ => false
  end.

End BuildContext.

(** ** More observations *)

(** Whether [which] finds a container tool. *)
Definition found (h : host) (container : string) : bool :=
  match (run h ["bash"; "-c"; "which " +:+ container]).2 with
  | None => true
  | Some _ => false
  end.

(** The first of podman and docker that is found. *)
Definition firstTool (h : host) : option string :=
  if found h "podman" then Some "podman"%string
  else if found h "docker" then Some "docker"%string
  else None.

Definition isRead (e : event) : bool :=
  match e with
  | EvRead => true
  | _ => false
  end.

Definition isRun (e : event) : bool :=
  match e with
  | EvRun _ => true
  | _ => false
  end.


(** The calls on the terminal and on standard input. *)
Definition ttyCall (e : event) : bool := termCall e || isRead e.

(** The calls that reach outside the terminal: commands and the file
    system. *)
Definition outsideCall (e : event) : bool :=
  match e with
  | EvRun _ | EvStat _ | EvMkdir _ | EvRemoveAll _ => true
  | _ => false
  end.

Definition count (f : event -> bool) (evs : list event) : nat :=
  length (base.filter (fun e => f e = true) evs).

(** Every line feed of the string comes right after a carriage return. *)
Fixpoint crlfFrom (afterCR : bool) (s : string) : bool :=
  match s with
  | EmptyString => true
  | String c s' =>
      (if Ascii.eqb c "010"%char then afterCR else true)
      && crlfFrom (Ascii.eqb c "013"%char) s'
  end.

Definition crlfOnly (s : string) : bool := crlfFrom false s.

Definition crlfEvent (e : event) : bool :=
  match e with
  | EvPrint s => crlfOnly s
  | _ => true
  end.

(** The calls of the menu: on the terminal, reads and prints. *)
Definition menuCall (e : event) : bool :=
  match e with
  | EvMakeRaw | EvRestore _ | EvRead | EvPrint _ => true
  | _ => false
  end.

(** The platforms [initializeVM] goes on with. *)
Definition platformOk (h : host) (testMode : bool) : Prop :=
  GOOS h <> "windows"%string /\ (GOOS h = "linux"%string -> testMode = true).

(** The image of a distro is there or can be built with the tool. *)
Definition imageReady (h : host) (tool distro : string) : Prop :=
  let tag := "linuxformac-" +:+ distro in
  (run h [tool; "image"; "inspect"; tag]%string).2 = None
  \/ exists ctx,
      embeddedFiles h = inl ctx
      /\ (run h [tool; "build"; "-t"; tag; "-f";
                 ctx +:+ "/" +:+ "Dockerfile." +:+ distro; ctx]%string).2 = None.


(** The call came to an end: it returned, or the process exited with
    status 1. *)
Definition finished {A} (o : outcome A) : Prop :=
  match o with
  | Returned _ => True
  | Exited c => c = 1
  | _ => False
  end.

(** A program keeps to the events [okE], changes the world within [R] and
    comes to an end. *)
Definition keeps {A} (okE : event -> Prop) (R : world -> world -> Prop)
    (m : M A) : Prop :=
  forall w evs w' o,
    m w = (evs, w', o) -> Forall okE evs /\ R w w' /\ finished o.

(** * Properties of the menu *)

Section MenuFacts.
Variable choices : list string.

Lemma dispatch_fill data buf buf' selected :
  dispatch choices (nread data) (fill data buf) selected
  = dispatch choices (nread data) (fill data buf') selected.
Proof.
  destruct data as [|x [|y [|z t]]]; reflexivity.
Qed.

(** What the buffer held before a read never matters. *)
Lemma menuLoop_buf rs : forall selected buf buf',
  menuLoop choices rs selected buf = menuLoop choices rs selected buf'.
Proof.
  induction rs as [|r rs IH]; intros selected buf buf'; [reflexivity|].
  destruct r as [data|e]; [|reflexivity].
  cbn [menuLoop pass]. rewrite (dispatch_fill data buf buf').
  destruct (dispatch _ _ _ _); try reflexivity.
  now rewrite (IH _ (fill data buf) (fill data buf')).
Qed.

Lemma render_termCall selected :
  Forall (fun e => termCall e = false) (render choices selected).
Proof.
  unfold render. rewrite !Forall_app. split_and!; [by repeat constructor| |by repeat constructor].
  apply Forall_forall. intros e He.
  apply elem_of_lookup_imap in He as (i & d & -> & _).
  unfold renderLine. now case_decide.
Qed.

Ltac quiet_events :=
  repeat first
    [ apply render_termCall
    | constructor; [reflexivity|]
    | constructor
    | apply Forall_app; split ].

Lemma pass_termCall r selected buf evs x :
  pass choices r selected buf = (evs, x) ->
  Forall (fun e => termCall e = false) evs.
Proof.
  unfold pass. destruct r as [data|e].
  - destruct (dispatch _ _ _ _); intros [= <- _]; quiet_events.
  - intros [= <- _]. quiet_events.
Qed.

Lemma menuLoop_termCall rs : forall selected buf evs rest o,
  menuLoop choices rs selected buf = (evs, rest, o) ->
  Forall (fun e => termCall e = false) evs.
Proof.
  induction rs as [|r rs IH]; intros selected buf evs rest o; cbn [menuLoop].
  - intros [= <- _ _]. repeat constructor.
  - destruct (pass choices r selected buf) as [evs1 [[s b]|o1]] eqn:Hp.
    + destruct (menuLoop choices rs s b) as [[evs2 rest2] o2] eqn:Hl.
      intros [= <- _ _]. apply Forall_app; split.
      * eapply pass_termCall, Hp.
      * eapply IH, Hl.
    + intros [= <- _ _]. eapply pass_termCall, Hp.
Qed.
End MenuFacts.

Section LoopFacts.
Variable choices : list string.

Abbreviation top := [EvPrint (cursorUp (len choices + 4)); EvRead].

Lemma menuLoop_app pre : forall selected buf evs0 s b rs,
  advance choices pre selected buf = Some (evs0, s, b) ->
  menuLoop choices (pre ++ rs) selected buf
  = let '(evs, rest, o) := menuLoop choices rs s b in (evs0 ++ evs, rest, o).
Proof.
  induction pre as [|r pre IH]; intros selected buf evs0 s b rs; cbn [advance].
  - intros [= <- <- <-]. cbn [app]. now destruct (menuLoop _ _ _ _) as [[? ?] ?].
  - cbn [app menuLoop].
    destruct (pass choices r selected buf) as [evs1 [[s1 b1]|o1]]; [|discriminate].
    destruct (advance choices pre s1 b1) as [[[evs2 s2] b2]|] eqn:Ha; [|discriminate].
    intros [= <- <- <-]. rewrite (IH _ _ _ _ _ rs Ha).
    destruct (menuLoop choices rs s2 b2) as [[evs3 rest] o].
    now rewrite app_assoc.
Qed.

Lemma menuLoop_not_exited rs : forall selected buf evs rest c,
  menuLoop choices rs selected buf <> (evs, rest, Exited c).
Proof.
  induction rs as [|r rs IH]; intros selected buf evs rest c; cbn [menuLoop].
  - discriminate.
  - destruct (pass choices r selected buf) as [evs1 [[s b]|o1]] eqn:Hp.
    + specialize (IH s b). destruct (menuLoop choices rs s b) as [[evs2 r2] o2].
      intros [= _ _ ->]. now eapply IH.
    + intros [= _ _ ->]. unfold pass in Hp. destruct r as [data|e].
      * destruct (dispatch _ _ _ _); [discriminate| |discriminate].
        now destruct (index choices selected).
      * discriminate.
Qed.

(** A read error is the only way to an error that wraps a cause. *)
Lemma menuLoop_ioError rs : forall selected buf evs rest d err,
  menuLoop choices rs selected buf = (evs, rest, Returned (d, Some err)) ->
  is_Some (Unwrap err) ->
  exists pre e,
    rs = pre ++ ReadErr e :: rest
    /\ is_Some (advance choices pre selected buf)
    /\ d = ""%string /\ err = Wrap "read input: " e.
Proof.
  induction rs as [|r rs IH]; intros selected buf evs rest d err; cbn [menuLoop].
  - discriminate.
  - destruct (pass choices r selected buf) as [evs1 [[s b]|o1]] eqn:Hp.
    + destruct (menuLoop choices rs s b) as [[evs2 r2] o2] eqn:Hl.
      intros [= _ -> ->] Hu.
      destruct (IH _ _ _ _ _ _ Hl Hu) as (pre & e & -> & [x Hx] & -> & ->).
      exists (r :: pre), e. split; [reflexivity|]. split; [|done].
      cbn [advance]. rewrite Hp, Hx. destruct x as [[? ?] ?]. eauto.
    + intros [= _ -> ->] Hu. unfold pass in Hp. destruct r as [data|e].
      * destruct (dispatch _ _ _ _); [| |discriminate].
        -- simplify_eq. now destruct Hu.
        -- destruct (index choices selected); simplify_eq.
      * simplify_eq. exists [], e. cbn. eauto.
Qed.

(** A label that is returned was read off the list. *)
Lemma menuLoop_chosen rs : forall selected buf evs rest d,
  menuLoop choices rs selected buf = (evs, rest, Returned (d, None)) ->
  d ∈ choices.
Proof.
  induction rs as [|r rs IH]; intros selected buf evs rest d; cbn [menuLoop].
  - discriminate.
  - destruct (pass choices r selected buf) as [evs1 [[s b]|o1]] eqn:Hp.
    + destruct (menuLoop choices rs s b) as [[evs2 r2] o2] eqn:Hl.
      intros [= _ _ ->]. eapply IH, Hl.
    + intros [= _ _ ->]. unfold pass in Hp. destruct r as [data|e].
      * destruct (dispatch _ _ _ _); [discriminate| |discriminate].
        unfold index in Hp. case_decide; [|discriminate].
        destruct (choices !! Z.to_nat selected) as [x|] eqn:Hx; [|discriminate].
        simplify_eq. eapply list_elem_of_lookup_2, Hx.
      * discriminate.
Qed.

Lemma pass_down k selected buf :
  k ∈ downKeys ->
  pass choices (ReadOk k) selected buf
  = (top ++ render choices (down choices selected),
     inl (down choices selected, fill k buf)).
Proof.
  unfold downKeys. rewrite !elem_of_cons.
  intros [->|[->|[->|H]]]; [reflexivity..|]. now apply elem_of_nil in H.
Qed.

Lemma pass_up k selected buf :
  k ∈ upKeys ->
  pass choices (ReadOk k) selected buf
  = (top ++ render choices (up selected), inl (up selected, fill k buf)).
Proof.
  unfold upKeys. rewrite !elem_of_cons.
  intros [->|[->|[->|H]]]; [reflexivity..|]. now apply elem_of_nil in H.
Qed.

Lemma pass_quit k selected buf :
  k ∈ quitKeys ->
  pass choices (ReadOk k) selected buf
  = (top ++ [EvPrint clearDown],
     inr (Returned (""%string, Some (Errorf "cancelled")))).
Proof.
  unfold quitKeys. rewrite !elem_of_cons.
  intros [->|[->|H]]; [reflexivity..|]. now apply elem_of_nil in H.
Qed.

Lemma advance_downs downs : forall selected buf,
  Forall (press downKeys) downs ->
  selected + Z.of_nat (length downs) <= len choices - 1 ->
  exists evs b,
    advance choices downs selected buf
    = Some (evs, selected + Z.of_nat (length downs), b).
Proof.
  induction downs as [|r downs IH]; intros selected buf Hd Hle.
  - exists [], buf. cbn. do 3 f_equal. lia.
  - apply Forall_cons in Hd as [(k & Hk & ->) Hd].
    cbn [advance]. rewrite (pass_down k selected buf Hk).
    cbn [length] in *.
    assert (down choices selected = selected + 1) as ->
      by (unfold down; case_decide; lia).
    destruct (IH (selected + 1) (fill k buf) Hd) as (evs & b & ->); [lia|].
    eexists _, b. do 3 f_equal. lia.
Qed.

Lemma advance_navs navs : forall selected buf,
  Forall (press (downKeys ++ upKeys)) navs ->
  is_Some (advance choices navs selected buf).
Proof.
  induction navs as [|r navs IH]; intros selected buf Hn; [by eexists|].
  apply Forall_cons in Hn as [(k & Hk & ->) Hn].
  cbn [advance]. apply elem_of_app in Hk as [Hk|Hk].
  - rewrite (pass_down k selected buf Hk).
    destruct (IH (down choices selected) (fill k buf) Hn) as [[[? ?] ?] ->].
    by eexists.
  - rewrite (pass_up k selected buf Hk).
    destruct (IH (up selected) (fill k buf) Hn) as [[[? ?] ?] ->].
    by eexists.
Qed.

(** The session around the loop once raw mode is on. *)
Lemma selectFrom_raw h w evs rest o :
  makeRaw_err h = None ->
  menuLoop choices (stdin w) 0 zeroBuf = (evs, rest, o) ->
  selectFrom choices h w
  = match o with
    | Returned _ | Panicked =>
        (EvMakeRaw :: (render choices 0 ++ evs) ++ [EvRestore (tty w)],
         {| tty := tty w; stdin := rest; nodes := nodes w |}, o)
    | _ =>
        (EvMakeRaw :: render choices 0 ++ evs,
         {| tty := Raw; stdin := rest; nodes := nodes w |}, o)
    end.
Proof.
  intros Hraw Hl. unfold selectFrom, defer, menu. rewrite Hraw.
  cbn [stdin set_tty]. rewrite Hl. now destruct o.
Qed.
End LoopFacts.

Section CursorFacts.
Variable choices : list string.

Lemma dispatch_stay n buf selected s :
  dispatch choices n buf selected = Stay s ->
  s = selected \/ s = up selected \/ s = down choices selected.
Proof.
  unfold dispatch. repeat case_match; intros [= <-]; auto.
Qed.

Lemma up_range selected :
  0 <= selected < len choices -> 0 <= up selected < len choices.
Proof. unfold up. case_decide; lia. Qed.

Lemma down_range selected :
  0 <= selected < len choices -> 0 <= down choices selected < len choices.
Proof. unfold down. case_decide; lia. Qed.

(** No pass moves the cursor out of the list. *)
Lemma pass_range r selected buf evs selected' buf' :
  pass choices r selected buf = (evs, inl (selected', buf')) ->
  0 <= selected < len choices ->
  0 <= selected' < len choices.
Proof.
  unfold pass. destruct r as [data|e]; [|discriminate].
  destruct (dispatch _ _ _ _) eqn:Hd; [discriminate..|].
  intros [= _ <- _] Hr.
  destruct (dispatch_stay _ _ _ _ Hd) as [-> | [-> | ->] ];
    auto using up_range, down_range.
Qed.

Lemma reachable_range selected buf :
  choices <> [] ->
  reachable choices selected buf ->
  0 <= selected < len choices.
Proof.
  intros Hne Hr. induction Hr as [|r s b evs s' b' _ IH Hp].
  - unfold len. destruct choices; [done|]. cbn [length]. lia.
  - eapply pass_range; eauto.
Qed.

Lemma unrecognized_stay data buf selected :
  unrecognized data ->
  dispatch choices (nread data) (fill data buf) selected = Stay selected.
Proof.
  intros [(b & Hb & Hk) | [Hlen Hesc] ].
  - destruct data as [|x [|y [|z t]]]; try discriminate.
    injection Hb as ->. unfold singleKeys in Hk.
    rewrite !elem_of_cons, elem_of_nil in Hk.
    destruct b; try reflexivity; exfalso; apply Hk; tauto.
  - destruct data as [|x [|y [|z t]]]; cbn in Hlen; try lia; [reflexivity|].
    unfold dispatch, nread. cbn [take length fill b0 b1 b2].
    change (Z.of_nat 3 =? 1) with false. change (Z.of_nat 3 =? 3) with true.
    cbn [andb].
    destruct (Byte.eqb x x1b) eqn:Hx; [|reflexivity].
    destruct (Byte.eqb y "["%byte) eqn:Hy; [|reflexivity].
    apply Byte.byte_dec_bl in Hx, Hy. subst. now destruct (Hesc z).
Qed.

Lemma menuLoop_cancelled rs : forall selected buf evs rest d,
  menuLoop choices rs selected buf
  = (evs, rest, Returned (d, Some (Errorf "cancelled"))) ->
  exists evs0, evs = evs0 ++ [EvPrint clearDown].
Proof.
  induction rs as [|r rs IH]; intros selected buf evs rest d; cbn [menuLoop].
  - discriminate.
  - destruct (pass choices r selected buf) as [evs1 [[s b]|o1]] eqn:Hp.
    + destruct (menuLoop choices rs s b) as [[evs2 r2] o2] eqn:Hl.
      intros [= <- _ ->]. destruct (IH _ _ _ _ _ Hl) as [evs0 ->].
      exists (evs1 ++ evs0). now rewrite app_assoc.
    + intros [= <- _ ->]. unfold pass in Hp. destruct r as [data|e].
      * destruct (dispatch _ _ _ _); [| |discriminate].
        -- simplify_eq. by eexists [_; _].
        -- destruct (index choices selected); simplify_eq.
      * simplify_eq.
Qed.

(** The two errors the loop returns. *)
Lemma menuLoop_error_kinds rs : forall selected buf evs rest d err,
  menuLoop choices rs selected buf = (evs, rest, Returned (d, Some err)) ->
  err = Errorf "cancelled" \/ is_Some (Unwrap err).
Proof.
  induction rs as [|r rs IH]; intros selected buf evs rest d err; cbn [menuLoop].
  - discriminate.
  - destruct (pass choices r selected buf) as [evs1 [[s b]|o1]] eqn:Hp.
    + destruct (menuLoop choices rs s b) as [[evs2 r2] o2] eqn:Hl.
      intros [= _ _ ->]. eapply IH, Hl.
    + intros [= _ _ ->]. unfold pass in Hp. destruct r as [data|e].
      * destruct (dispatch _ _ _ _); [| |discriminate].
        -- simplify_eq. now left.
        -- destruct (index choices selected); simplify_eq.
      * simplify_eq. right. by eexists.
Qed.
End CursorFacts.

(** * The claims about the menu *)

(** C1: in a session of [selectDistro] that got into raw mode and came back
    (by a selection, a cancellation or a failed read), the terminal calls
    are the [MakeRaw] at the start and one [Restore] of the mode captured
    there, as the last event; the terminal is back in that mode. *)
Theorem C1_terminal_restored_once h w evs w' o :
  makeRaw_err h = None ->
  selectDistro h w = (evs, w', o) ->
  o <> Blocked ->
  exists body,
    evs = EvMakeRaw :: body ++ [EvRestore (tty w)]
    /\ Forall (fun e => termCall e = false) body
    /\ tty w' = tty w.
Proof.
  intros Hraw Hs Hret. unfold selectDistro in Hs.
  destruct (menuLoop distroList (stdin w) 0 zeroBuf) as [[evs1 rest] o1] eqn:Hl.
  rewrite (selectFrom_raw _ _ _ _ _ _ Hraw Hl) in Hs.
  assert (Forall (fun e => termCall e = false) (render distroList 0 ++ evs1)).
  { apply Forall_app; split; [apply render_termCall|].
    eapply menuLoop_termCall, Hl. }
  destruct o1; simplify_eq; eauto.
  now apply menuLoop_not_exited in Hl.
Qed.

Lemma C1_witness :
  let s := selectDistro macHost (typed [arrowDown; ReadOk ["q"%byte]]) in
  exists body,
    s.1.1 = EvMakeRaw :: body ++ [EvRestore Cooked]
    /\ Forall (fun e => termCall e = false) body
    /\ tty s.1.2 = Cooked.
Proof.
  intros s.
  apply (C1_terminal_restored_once macHost
           (typed [arrowDown; ReadOk ["q"%byte]]) s.1.1 s.1.2 s.2);
    [reflexivity | reflexivity | discriminate].
Defined.

(** C2: from the initial cursor 0, [N] down presses with
    [N < len(choices) - 1] and then enter return the label [choices[N]];
    on the five distros, down, down, enter returns arch. *)
Theorem C2_enter_after_downs (choices : list string) h w downs rest :
  makeRaw_err h = None ->
  Forall (press downKeys) downs ->
  Z.of_nat (length downs) < len choices - 1 ->
  stdin w = downs ++ enter :: rest ->
  (exists evs d,
     choices !! length downs = Some d
     /\ selectFrom choices h w
        = (evs, {| tty := tty w; stdin := rest; nodes := nodes w |},
           Returned (d, None)))
  /\ (forall r1 r2, press downKeys r1 -> press downKeys r2 ->
      exists evs,
        selectDistro h (set_stdin [r1; r2; enter] w)
        = (evs, set_stdin [] w, Returned ("arch"%string, None))).
Proof.
  intros Hraw Hd Hlt Hin.
  assert (forall cs ds tl v,
    Forall (press downKeys) ds ->
    Z.of_nat (length ds) < len cs - 1 ->
    stdin v = ds ++ enter :: tl ->
    exists evs d,
      cs !! length ds = Some d
      /\ selectFrom cs h v
         = (evs, {| tty := tty v; stdin := tl; nodes := nodes v |},
            Returned (d, None))) as Hgen.
  { intros cs ds tl v Hds Hn Hv.
    destruct (advance_downs cs ds 0 zeroBuf Hds) as (evs0 & b & Ha); [lia|].
    destruct (lookup_lt_is_Some_2 cs (length ds)) as [d Hd'];
      [unfold len in Hn; lia|].
    pose proof (menuLoop_app cs ds 0 zeroBuf evs0 _ b (enter :: tl) Ha) as Hl.
    rewrite <- Hv in Hl. cbn [menuLoop pass enter enterKey] in Hl.
    change (dispatch cs (nread [x0d]) (fill [x0d] b) (0 + Z.of_nat (length ds)))
      with Choose in Hl.
    unfold index in Hl. rewrite decide_True in Hl by lia.
    replace (Z.to_nat (0 + Z.of_nat (length ds))) with (length ds) in Hl by lia.
    rewrite Hd' in Hl.
    eexists _, d. split; [exact Hd'|].
    now rewrite (selectFrom_raw _ _ _ _ _ _ Hraw Hl). }
  split; [now apply Hgen|].
  intros r1 r2 H1 H2.
  destruct (Hgen distroList [r1; r2] [] (set_stdin [r1; r2; enter] w))
    as (evs & d & Hd' & Hs); [by repeat constructor|done|done|].
  injection Hd' as <-. eexists. exact Hs.
Qed.

Lemma C2_witness :
  (exists evs d,
     distroList !! 2%nat = Some d
     /\ selectFrom distroList macHost (typed [arrowDown; ReadOk ["j"%byte]; enter])
        = (evs, {| tty := Cooked; stdin := []; nodes := ∅ |}, Returned (d, None)))
  /\ (forall r1 r2, press downKeys r1 -> press downKeys r2 ->
      exists evs,
        selectDistro macHost
          (set_stdin [r1; r2; enter] (typed [arrowDown; ReadOk ["j"%byte]; enter]))
        = (evs, set_stdin [] (typed [arrowDown; ReadOk ["j"%byte]; enter]),
           Returned ("arch"%string, None))).
Proof.
  apply (C2_enter_after_downs distroList macHost
           (typed [arrowDown; ReadOk ["j"%byte]; enter])
           [arrowDown; ReadOk ["j"%byte]] []).
  - reflexivity.
  - repeat constructor.
    + exists [x1b; "["%byte; "B"%byte]. split; [|reflexivity].
      unfold downKeys. rewrite !elem_of_cons. tauto.
    + exists ["j"%byte]. split; [|reflexivity].
      unfold downKeys. rewrite !elem_of_cons. tauto.
  - vm_compute. reflexivity.
  - reflexivity.
Defined.

(** C3: whatever was typed, the cursor the loop reads with is an index of
    the list; a down press moves it to [min (cursor + 1) (len - 1)] and an
    up press to [max (cursor - 1) 0], so neither wraps around. *)
Theorem C3_cursor_in_range (choices : list string) selected buf :
  choices <> [] ->
  reachable choices selected buf ->
  0 <= selected < len choices
  /\ (forall k, k ∈ downKeys ->
      exists evs buf',
        pass choices (ReadOk k) selected buf
        = (evs, inl (Z.min (selected + 1) (len choices - 1), buf')))
  /\ (forall k, k ∈ upKeys ->
      exists evs buf',
        pass choices (ReadOk k) selected buf
        = (evs, inl (Z.max (selected - 1) 0, buf'))).
Proof.
  intros Hne Hr. pose proof (reachable_range choices selected buf Hne Hr) as Hrange.
  split; [exact Hrange|]. split; intros k Hk.
  - rewrite (pass_down choices k selected buf Hk). eexists _, _.
    do 3 f_equal. unfold down. case_decide; lia.
  - rewrite (pass_up choices k selected buf Hk). eexists _, _.
    do 3 f_equal. unfold up. case_decide; lia.
Qed.

Lemma C3_witness :
  0 <= 1 < len distroList
  /\ (forall k, k ∈ downKeys ->
      exists evs buf',
        pass distroList (ReadOk k) 1 (fill ["j"%byte] zeroBuf)
        = (evs, inl (Z.min (1 + 1) (len distroList - 1), buf')))
  /\ (forall k, k ∈ upKeys ->
      exists evs buf',
        pass distroList (ReadOk k) 1 (fill ["j"%byte] zeroBuf)
        = (evs, inl (Z.max (1 - 1) 0, buf'))).
Proof.
  apply (C3_cursor_in_range distroList 1 (fill ["j"%byte] zeroBuf)).
  - discriminate.
  - apply (reach_pass distroList (ReadOk ["j"%byte]) 0 zeroBuf
             ([EvPrint (cursorUp (len distroList + 4)); EvRead]
              ++ render distroList 1) 1 (fill ["j"%byte] zeroBuf)).
    + apply reach_init.
    + reflexivity.
Defined.

(** C4: a read outside the enumerated tokens changes neither the cursor nor
    what the session ends with: the pass prints the cursor-up, reads,
    renders the menu once for the same cursor and goes on; the rest of the
    session is what it would have been without that read. *)
Theorem C4_unrecognized_ignored (choices : list string) data selected buf rs :
  unrecognized data ->
  pass choices (ReadOk data) selected buf
  = ([EvPrint (cursorUp (len choices + 4)); EvRead] ++ render choices selected,
     inl (selected, fill data buf))
  /\ menuLoop choices (ReadOk data :: rs) selected buf
     = let '(evs, rest, o) := menuLoop choices rs selected buf in
       ([EvPrint (cursorUp (len choices + 4)); EvRead]
          ++ render choices selected ++ evs,
        rest, o).
Proof.
  intros Hu.
  assert (pass choices (ReadOk data) selected buf
          = ([EvPrint (cursorUp (len choices + 4)); EvRead]
               ++ render choices selected,
             inl (selected, fill data buf))) as Hp.
  { unfold pass. now rewrite (unrecognized_stay choices data buf selected Hu). }
  split; [exact Hp|].
  cbn [menuLoop]. rewrite Hp.
  rewrite (menuLoop_buf choices rs selected (fill data buf) buf).
  destruct (menuLoop choices rs selected buf) as [[evs rest] o].
  now rewrite <- app_assoc.
Qed.

Lemma C4_witness :
  pass distroList (ReadOk ["x"%byte]) 2 zeroBuf
  = ([EvPrint (cursorUp (len distroList + 4)); EvRead] ++ render distroList 2,
     inl (2, fill ["x"%byte] zeroBuf))
  /\ menuLoop distroList [ReadOk ["x"%byte]; enter] 2 zeroBuf
     = let '(evs, rest, o) := menuLoop distroList [enter] 2 zeroBuf in
       ([EvPrint (cursorUp (len distroList + 4)); EvRead]
          ++ render distroList 2 ++ evs,
        rest, o).
Proof.
  apply (C4_unrecognized_ignored distroList ["x"%byte] 2 zeroBuf [enter]).
  left. exists "x"%byte. split; [reflexivity|].
  unfold singleKeys. rewrite !elem_of_cons, elem_of_nil.
  intros [H|[H|[H|[H|[H|[H|[H|H]]]]]]]; try discriminate H. exact H.
Defined.

(** C5: after any run of up and down presses, [q] or [Q] ends the session
    with the error [cancelled]; the last thing printed is the clearing of
    the menu, with the cursor moved up over the block first, and then the
    terminal is restored.  The pass does so at every cursor. *)
Theorem C5_quit_cancels h w navs k rest :
  makeRaw_err h = None ->
  Forall (press (downKeys ++ upKeys)) navs ->
  k ∈ quitKeys ->
  stdin w = navs ++ ReadOk k :: rest ->
  (exists body,
     selectDistro h w
     = (EvMakeRaw :: body
          ++ [EvPrint (cursorUp (len distroList + 4)); EvRead;
              EvPrint clearDown; EvRestore (tty w)],
        {| tty := tty w; stdin := rest; nodes := nodes w |},
        Returned (""%string, Some (Errorf "cancelled"))))
  /\ (forall selected buf,
      pass distroList (ReadOk k) selected buf
      = ([EvPrint (cursorUp (len distroList + 4)); EvRead; EvPrint clearDown],
         inr (Returned (""%string, Some (Errorf "cancelled"))))).
Proof.
  intros Hraw Hn Hk Hin. split.
  - destruct (advance_navs distroList navs 0 zeroBuf Hn) as [[[evs0 s] b] Ha].
    pose proof (menuLoop_app distroList navs 0 zeroBuf evs0 s b
                  (ReadOk k :: rest) Ha) as Hl.
    rewrite <- Hin in Hl. cbn [menuLoop] in Hl.
    rewrite (pass_quit distroList k s b Hk) in Hl.
    unfold selectDistro. rewrite (selectFrom_raw _ _ _ _ _ _ Hraw Hl).
    exists (render distroList 0 ++ evs0). f_equal. f_equal. f_equal.
    now rewrite <- !app_assoc.
  - intros selected buf. apply (pass_quit distroList k selected buf Hk).
Qed.

Lemma C5_witness :
  (exists body,
     selectDistro macHost (typed [arrowDown; arrowUp; ReadOk ["Q"%byte]; enter])
     = (EvMakeRaw :: body
          ++ [EvPrint (cursorUp (len distroList + 4)); EvRead;
              EvPrint clearDown; EvRestore Cooked],
        {| tty := Cooked; stdin := [enter]; nodes := ∅ |},
        Returned (""%string, Some (Errorf "cancelled"))))
  /\ (forall selected buf,
      pass distroList (ReadOk ["Q"%byte]) selected buf
      = ([EvPrint (cursorUp (len distroList + 4)); EvRead; EvPrint clearDown],
         inr (Returned (""%string, Some (Errorf "cancelled"))))).
Proof.
  apply (C5_quit_cancels macHost
           (typed [arrowDown; arrowUp; ReadOk ["Q"%byte]; enter])
           [arrowDown; arrowUp] ["Q"%byte] [enter]).
  - reflexivity.
  - repeat constructor.
    + exists [x1b; "["%byte; "B"%byte]. split; [|reflexivity].
      unfold downKeys, upKeys. rewrite elem_of_app, !elem_of_cons. tauto.
    + exists [x1b; "["%byte; "A"%byte]. split; [|reflexivity].
      unfold downKeys, upKeys. rewrite elem_of_app, !elem_of_cons. tauto.
  - unfold quitKeys. rewrite !elem_of_cons. tauto.
  - reflexivity.
Defined.

(** A read that fails ends the session there: nothing more is read. *)
Lemma selectDistro_readErr h w pre e rest evs0 s b :
  makeRaw_err h = None ->
  stdin w = pre ++ ReadErr e :: rest ->
  advance distroList pre 0 zeroBuf = Some (evs0, s, b) ->
  selectDistro h w
  = (EvMakeRaw :: (render distroList 0 ++ evs0)
       ++ [EvPrint (cursorUp (len distroList + 4)); EvRead; EvRestore (tty w)],
     {| tty := tty w; stdin := rest; nodes := nodes w |},
     Returned (""%string, Some (Wrap "read input: " e))).
Proof.
  intros Hraw Hin Ha.
  pose proof (menuLoop_app distroList pre 0 zeroBuf evs0 s b
                (ReadErr e :: rest) Ha) as Hl.
  rewrite <- Hin in Hl. cbn [menuLoop pass] in Hl.
  unfold selectDistro. rewrite (selectFrom_raw _ _ _ _ _ _ Hraw Hl).
  f_equal. f_equal. f_equal. now rewrite <- !app_assoc.
Qed.

Lemma selectDistro_rawErr h w e :
  makeRaw_err h = Some e ->
  selectDistro h w
  = ([EvMakeRaw], w, Returned (""%string, Some (Wrap "enable raw mode: " e))).
Proof. intros Hraw. unfold selectDistro, selectFrom. now rewrite Hraw. Qed.

(** C6: [selectDistro] returns an error that wraps an I/O error exactly
    when raw mode could not be set up or the session got to a read that
    failed.  The failed read is the last one: the terminal is restored
    right after it, the reads behind it stay unread, and the error wraps
    the read's own.  When raw mode fails nothing else happens. *)
Theorem C6_io_failures h w evs w' o :
  selectDistro h w = (evs, w', o) ->
  (ioError o <-> is_Some (makeRaw_err h) \/ readFails w)
  /\ (forall pre e rest,
      makeRaw_err h = None ->
      stdin w = pre ++ ReadErr e :: rest ->
      is_Some (advance distroList pre 0 zeroBuf) ->
      o = Returned (""%string, Some (Wrap "read input: " e))
      /\ w' = {| tty := tty w; stdin := rest; nodes := nodes w |}
      /\ exists body,
          Forall (fun ev => termCall ev = false) body
          /\ evs = EvMakeRaw :: body
               ++ [EvPrint (cursorUp (len distroList + 4)); EvRead;
                   EvRestore (tty w)])
  /\ (forall e,
      makeRaw_err h = Some e ->
      o = Returned (""%string, Some (Wrap "enable raw mode: " e))
      /\ w' = w /\ evs = [EvMakeRaw]).
Proof.
  intros Hs.
  assert (forall pre e rest,
    makeRaw_err h = None ->
    stdin w = pre ++ ReadErr e :: rest ->
    is_Some (advance distroList pre 0 zeroBuf) ->
    o = Returned (""%string, Some (Wrap "read input: " e))
    /\ w' = {| tty := tty w; stdin := rest; nodes := nodes w |}
    /\ exists body,
        Forall (fun ev => termCall ev = false) body
        /\ evs = EvMakeRaw :: body
             ++ [EvPrint (cursorUp (len distroList + 4)); EvRead;
                 EvRestore (tty w)]) as Hread.
  { intros pre e rest Hraw Hin [[[evs0 s] b] Ha].
    pose proof (menuLoop_app distroList pre 0 zeroBuf evs0 s b [] Ha) as Hq.
    rewrite app_nil_r in Hq. cbn [menuLoop] in Hq.
    apply menuLoop_termCall in Hq. apply Forall_app in Hq as [Hq _].
    rewrite (selectDistro_readErr h w pre e rest evs0 s b Hraw Hin Ha) in Hs.
    simplify_eq. split_and!; [done..|].
    exists (render distroList 0 ++ evs0). split; [|done].
    apply Forall_app; split; [apply render_termCall|exact Hq]. }
  split_and!; [split| exact Hread |].
  - intros (d & err & -> & Hu).
    destruct (makeRaw_err h) as [e|] eqn:Hraw; [left; by eexists|right].
    unfold selectDistro in Hs.
    destruct (menuLoop distroList (stdin w) 0 zeroBuf) as [[evs1 rest] o1] eqn:Hl.
    rewrite (selectFrom_raw _ _ _ _ _ _ Hraw Hl) in Hs.
    assert (o1 = Returned (d, Some err)) as -> by (destruct o1; simplify_eq; done).
    destruct (menuLoop_ioError _ _ _ _ _ _ _ _ Hl Hu) as (pre & e & Hin & Ha & _).
    now exists pre, e, rest.
  - intros Hor. destruct (makeRaw_err h) as [e|] eqn:Hraw.
    + rewrite (selectDistro_rawErr h w e Hraw) in Hs. simplify_eq.
      eexists _, _. split; [reflexivity|]. by eexists.
    + destruct Hor as [[x Hx]|(pre & e & rest & Hin & Ha)]; [discriminate|].
      destruct (Hread pre e rest eq_refl Hin Ha) as (-> & _).
      eexists _, _. split; [reflexivity|]. by eexists.
  - intros e Hraw. rewrite (selectDistro_rawErr h w e Hraw) in Hs.
    now simplify_eq.
Qed.

Lemma C6_witness :
  let w := typed [arrowDown; ReadErr (OSError "input/output error"); enter] in
  let s := selectDistro macHost w in
  (ioError s.2 <-> is_Some (makeRaw_err macHost) \/ readFails w)
  /\ (forall pre e rest,
      makeRaw_err macHost = None ->
      stdin w = pre ++ ReadErr e :: rest ->
      is_Some (advance distroList pre 0 zeroBuf) ->
      s.2 = Returned (""%string, Some (Wrap "read input: " e))
      /\ s.1.2 = {| tty := tty w; stdin := rest; nodes := nodes w |}
      /\ exists body,
          Forall (fun ev => termCall ev = false) body
          /\ s.1.1 = EvMakeRaw :: body
               ++ [EvPrint (cursorUp (len distroList + 4)); EvRead;
                   EvRestore (tty w)])
  /\ (forall e,
      makeRaw_err macHost = Some e ->
      s.2 = Returned (""%string, Some (Wrap "enable raw mode: " e))
      /\ s.1.2 = w /\ s.1.1 = [EvMakeRaw]).
Proof.
  intros w s.
  apply (C6_io_failures macHost w s.1.1 s.1.2 s.2). reflexivity.
Defined.

(** C8: a label that [selectDistro] returns without an error is one of the
    five of [distroList], and each of those has an image in [distroPath]. *)
Theorem C8_selection_supported h w evs w' d :
  selectDistro h w = (evs, w', Returned (d, None)) ->
  d ∈ distroList
  /\ distroList = ["ubuntu"; "debian"; "arch"; "fedora"; "alpine"]%string
  /\ (forall x, x ∈ distroList -> is_Some (distroPath !! x)).
Proof.
  intros Hs. split_and!; [|reflexivity|].
  - destruct (makeRaw_err h) as [e|] eqn:Hraw.
    + rewrite (selectDistro_rawErr h w e Hraw) in Hs. discriminate.
    + unfold selectDistro in Hs.
      destruct (menuLoop distroList (stdin w) 0 zeroBuf)
        as [[evs1 rest] o1] eqn:Hl.
      rewrite (selectFrom_raw _ _ _ _ _ _ Hraw Hl) in Hs.
      assert (o1 = Returned (d, None)) as -> by (destruct o1; simplify_eq; done).
      eapply menuLoop_chosen, Hl.
  - intros x. unfold distroList. rewrite !elem_of_cons, elem_of_nil.
    intros [->|[->|[->|[->|[->|[]]]]]]; vm_compute; eauto.
Qed.

Lemma C8_witness :
  "fedora"%string ∈ distroList
  /\ distroList = ["ubuntu"; "debian"; "arch"; "fedora"; "alpine"]%string
  /\ (forall x, x ∈ distroList -> is_Some (distroPath !! x)).
Proof.
  apply (C8_selection_supported macHost
           (typed [arrowDown; arrowDown; ReadOk ["J"%byte]; enter])
           (selectDistro macHost
              (typed [arrowDown; arrowDown; ReadOk ["J"%byte]; enter])).1.1
           (typed [])).
  reflexivity.
Defined.

(** * The caller of the menu *)

(** What [main] does for an error of the selector: the same for every
    error. *)
Lemma main_selection_error h Args w evs w' d err :
  (length Args < 2)%nat ->
  selectDistro h w = (evs, w', Returned (d, Some err)) ->
  main h Args w = (evs ++ [EvLogf "Distro selection: %v" [Error err]], w', Exited 1).
Proof.
  intros Hlen Hs. unfold main.
  assert (forall K : string * bool -> M unit,
    mbind K (r ← selectDistro h;
             match r with
             | (_, Some err0) => logFatalf "Distro selection: %v" [Error err0]
             | (choice, None) => mret (choice, true)
             end) w
    = (evs ++ [EvLogf "Distro selection: %v" [Error err]], w', Exited 1)) as Hsel.
  { intros K. unfold mbind, M_mbind, M_bind. now rewrite Hs. }
  destruct Args as [|a0 [|a1 rest]]; [apply Hsel..|cbn in Hlen; lia].
Qed.

(** C7 fails for a [q] typed at the menu: [main] logs the cancellation as a
    failed selection and exits with status 1. *)
Lemma C7_cancel_not_quiet :
  ~ quietCancel macHost ["linuxformac"%string] (typed [ReadOk ["q"%byte]]).
Proof.
  intros H. destruct (H _ _ _ eq_refl) as [o Ho].
  rewrite (main_selection_error macHost ["linuxformac"%string]
             (typed [ReadOk ["q"%byte]]) _ _ _ _ ltac:(cbn; lia) eq_refl) in Ho.
  apply (f_equal (fun r => length r.1.1)) in Ho. vm_compute in Ho. discriminate.
Qed.

(** C7, amended: a cancellation comes back from [selectDistro] as the error
    [cancelled], which wraps nothing and so differs from the errors of raw
    mode and of reading; [main] handles every error of the selector alike:
    when the selector is back (for a cancellation: the menu cleared and the
    terminal restored) it logs [Distro selection: <error>], exits with
    status 1 and launches nothing. *)
Theorem C7_cancel_is_an_error h Args w evs w' d err :
  (length Args < 2)%nat ->
  selectDistro h w = (evs, w', Returned (d, Some err)) ->
  main h Args w
  = (evs ++ [EvLogf "Distro selection: %v" [Error err]], w', Exited 1)
  /\ (err = Errorf "cancelled" \/ is_Some (Unwrap err))
  /\ (err = Errorf "cancelled" ->
      Unwrap err = None
      /\ tty w' = tty w
      /\ exists body,
          evs = EvMakeRaw :: body ++ [EvPrint clearDown; EvRestore (tty w)]).
Proof.
  intros Hlen Hs. split; [now apply main_selection_error with (d := d)|].
  destruct (makeRaw_err h) as [e|] eqn:Hraw.
  { rewrite (selectDistro_rawErr h w e Hraw) in Hs. simplify_eq.
    split; [right; by eexists|discriminate]. }
  pose proof Hs as Hs'. unfold selectDistro in Hs'.
  destruct (menuLoop distroList (stdin w) 0 zeroBuf) as [[evs1 rest] o1] eqn:Hl.
  rewrite (selectFrom_raw _ _ _ _ _ _ Hraw Hl) in Hs'.
  assert (o1 = Returned (d, Some err)) as -> by (destruct o1; simplify_eq; done).
  simplify_eq. split.
  - eapply menuLoop_error_kinds, Hl.
  - intros ->. split_and!; [done..|].
    destruct (menuLoop_cancelled _ _ _ _ _ _ _ Hl) as [evs0 ->].
    exists (render distroList 0 ++ evs0). now rewrite <- !app_assoc.
Qed.

Lemma C7_witness :
  let w := typed [arrowDown; ReadOk ["q"%byte]] in
  let s := selectDistro macHost w in
  main macHost ["linuxformac"%string] w
  = (s.1.1 ++ [EvLogf "Distro selection: %v" [Error (Errorf "cancelled")]],
     s.1.2, Exited 1)
  /\ (Errorf "cancelled" = Errorf "cancelled" \/ is_Some (Unwrap (Errorf "cancelled")))
  /\ (Errorf "cancelled" = Errorf "cancelled" ->
      Unwrap (Errorf "cancelled") = None
      /\ tty s.1.2 = tty w
      /\ exists body,
          s.1.1 = EvMakeRaw :: body ++ [EvPrint clearDown; EvRestore (tty w)]).
Proof.
  intros w s.
  apply (C7_cancel_is_an_error macHost ["linuxformac"%string] w
           s.1.1 s.1.2 ""%string (Errorf "cancelled")).
  - cbn. lia.
  - reflexivity.
Defined.

(** * The persistent volume *)

(** [CreatePersistentVolume] case by case. *)
Lemma CreatePersistentVolume_cases h distro w :
  CreatePersistentVolume h distro w
  = match homeDir h with
    | inr err => ([], w, Returned (""%string, Some (Wrap "get home dir: " err)))
    | inl home =>
        let path := volumePath home distro in
        let seen := [EvLogln ["Volume path:"; path]; EvStat path] in
        match stat h (nodes w) path with
        | inl true => (seen, w, Returned (path, None))
        | inl false =>
            (seen, w,
             Returned (""%string,
                       Some (Errorf ("volume path exists but is not a directory: "
                                     +:+ path))))
        | inr err =>
            if IsNotExist err then
              match mkdir_err h path with
              | Some e =>
                  (seen ++ [EvMkdir path], w,
                   Returned (""%string, Some (Wrap "create volume dir: " e)))
              | None =>
                  (seen ++ [EvMkdir path],
                   set_nodes (<[path := Dir]> (nodes w)) w,
                   Returned (path, None))
              end
            else (seen, w, Returned (""%string, Some (Wrap "stat volume path: " err)))
        end
    end.
Proof.
  unfold CreatePersistentVolume, volumePath.
  destruct (homeDir h) as [home|err]; [|reflexivity].
  unfold mbind, M_mbind, M_bind, emit, Stat, MkdirAll. cbn [app].
  destruct (stat h (nodes w) _) as [[|]|err] eqn:Hst; cbn [negb]; [reflexivity..|].
  destruct (IsNotExist err); cbn [negb]; [|reflexivity].
  rewrite Hst. now destruct (mkdir_err h _).
Qed.

(** C9: [CreatePersistentVolume] returns the path of a directory that is
    there and an error for another entry at the path, for a home directory
    it cannot find and for a [Stat] that fails otherwise than with "not
    exist"; in all of these the tree is as before and no [mkdir] is
    issued.  A [mkdir] or a change of the tree happens only after [Stat]
    reported "not exist".  A second call after a success returns the same
    path and leaves the tree as the first call left it. *)
Theorem C9_volume_idempotent_atomic h distro w evs w' o :
  CreatePersistentVolume h distro w = (evs, w', o) ->
  (forall home, homeDir h = inl home ->
     let path := volumePath home distro in
     (stat h (nodes w) path = inl true ->
        o = Returned (path, None) /\ w' = w
        /\ Forall (fun e => isMkdir e = false) evs)
     /\ (stat h (nodes w) path = inl false ->
        (exists err, o = Returned (""%string, Some err)) /\ w' = w
        /\ Forall (fun e => isMkdir e = false) evs)
     /\ (forall err, stat h (nodes w) path = inr err -> IsNotExist err = false ->
        o = Returned (""%string, Some (Wrap "stat volume path: " err)) /\ w' = w
        /\ Forall (fun e => isMkdir e = false) evs))
  /\ (forall err, homeDir h = inr err ->
      o = Returned (""%string, Some (Wrap "get home dir: " err)) /\ w' = w
      /\ evs = [])
  /\ (w' <> w \/ Exists (fun e => isMkdir e = true) evs ->
      exists home err,
        homeDir h = inl home
        /\ stat h (nodes w) (volumePath home distro) = inr err
        /\ IsNotExist err = true)
  /\ (forall p, o = Returned (p, None) ->
      exists evs', CreatePersistentVolume h distro w' = (evs', w', Returned (p, None))).
Proof.
  intros Hc. rewrite CreatePersistentVolume_cases in Hc.
  assert (forall l : list event,
            Exists (fun e => isMkdir e = true) l -> Forall (fun e => isMkdir e = false) l -> False)
    as Hex.
  { intros l He Hf. apply Exists_exists in He as (e & Hin & He).
    rewrite Forall_forall in Hf. specialize (Hf e Hin). congruence. }
  assert (forall p, Forall (fun e => isMkdir e = false)
                      [EvLogln ["Volume path:"%string; p]; EvStat p]) as Hseen
    by (intros p; repeat constructor).
  destruct (homeDir h) as [home|herr] eqn:Hhome; cbn zeta in Hc.
  2:{ simplify_eq. split_and!.
      - discriminate.
      - now intros err [= <-].
      - intros [Hw|He]; [done|]. now apply Exists_nil in He.
      - discriminate. }
  destruct (stat h (nodes w) (volumePath home distro)) as [[|]|err] eqn:Hst.
  - simplify_eq. split_and!.
    + intros ? [= <-]. cbn zeta. rewrite Hst. split_and!; [done|discriminate|discriminate].
    + discriminate.
    + intros [Hw|He]; [done|]. destruct (Hex _ He (Hseen _)).
    + intros p [= <-]. rewrite CreatePersistentVolume_cases, Hhome. cbn zeta.
      rewrite Hst. eauto.
  - simplify_eq. split_and!.
    + intros ? [= <-]. cbn zeta. rewrite Hst.
      split_and!; [discriminate| |discriminate]. intros _. eauto.
    + discriminate.
    + intros [Hw|He]; [done|]. destruct (Hex _ He (Hseen _)).
    + discriminate.
  - destruct (IsNotExist err) eqn:Hne.
    + assert (exists home0 err0,
                inl home = @inl string error home0
                /\ stat h (nodes w) (volumePath home0 distro) = inr err0
                /\ IsNotExist err0 = true) as Hwhy by eauto.
      assert (forall home0, @inl string error home = inl home0 ->
                let path := volumePath home0 distro in
                (stat h (nodes w) path = inl true ->
                   o = Returned (path, None) /\ w' = w
                   /\ Forall (fun e => isMkdir e = false) evs)
                /\ (stat h (nodes w) path = inl false ->
                   (exists err, o = Returned (""%string, Some err)) /\ w' = w
                   /\ Forall (fun e => isMkdir e = false) evs)
                /\ (forall err, stat h (nodes w) path = inr err ->
                   IsNotExist err = false ->
                   o = Returned (""%string, Some (Wrap "stat volume path: " err))
                   /\ w' = w /\ Forall (fun e => isMkdir e = false) evs)) as Hnot.
      { intros ? [= <-]. cbn zeta. rewrite Hst.
        split_and!; [discriminate..|]. intros ? [= <-]. congruence. }
      destruct (mkdir_err h (volumePath home distro)) as [e|] eqn:Hmk.
      * simplify_eq. split_and!; [exact Hnot|discriminate|done|discriminate].
      * simplify_eq. split_and!; [exact Hnot|discriminate|done|].
        intros p [= <-]. rewrite CreatePersistentVolume_cases, Hhome. cbn zeta.
        unfold stat in *. cbn [nodes set_nodes].
        destruct (stat_err h (volumePath home distro)) as [e|].
        -- simplify_eq. rewrite Hne, Hmk. cbn [nodes set_nodes].
           rewrite insert_insert_eq. eauto.
        -- rewrite lookup_insert_eq. eauto.
    + simplify_eq. split_and!.
      * intros ? [= <-]. cbn zeta. rewrite Hst.
        split_and!; [discriminate..|]. intros ? [= <-] _. done.
      * discriminate.
      * intros [Hw|He]; [done|]. destruct (Hex _ He (Hseen _)).
      * discriminate.
Qed.

Lemma C9_witness :
  let s := CreatePersistentVolume macHost "debian" (typed []) in
  s.2 = Returned ("/Users/me/debian_Volume"%string, None)
  /\ exists evs',
      CreatePersistentVolume macHost "debian" s.1.2
      = (evs', s.1.2, Returned ("/Users/me/debian_Volume"%string, None)).
Proof.
  intros s. split; [reflexivity|].
  destruct (C9_volume_idempotent_atomic macHost "debian" (typed [])
              s.1.1 s.1.2 s.2 eq_refl) as (_ & _ & _ & Hagain).
  apply Hagain. reflexivity.
Defined.

(** * Launching with or without the volume *)

(** What [initializeVM] does once its checks have passed, by the result of
    [CreatePersistentVolume]. *)
Lemma initializeVM_launch h distro testMode w0 evs0 w rt tag u evs1 w1 vol volErr :
  prepare h distro testMode w0 = (evs0, w, Returned (rt, tag, u)) ->
  CreatePersistentVolume h distro w = (evs1, w1, Returned (vol, volErr)) ->
  let mount :=
    match volErr with
    | Some _ => []
    | None => ["-v"%string; vol +:+ ":/data"]
    end in
  let note :=
    match volErr with
    | Some _ => EvLogln ["Cannot create volume. Skipping"%string]
    | None => EvLogf "Attaching volume: %s to %s" [vol; tag]
    end in
  let args :=
    baseArgs distro (Username u) (Uid u) (Gid u) ++ mount
      ++ homeMount h (Username u) ++ [tag] in
  initializeVM h distro testMode w0
  = match run h (rt :: args) with
    | (_, None) => (evs0 ++ evs1 ++ [note; EvRun (rt :: args)], w1, Returned None)
    | (_, Some e) =>
        (evs0 ++ evs1
           ++ [note; EvRun (rt :: args);
               EvLogf "Failed to run VM due to error: %v" [Error e]],
         w1, Exited 1)
    end.
Proof.
  intros Hp Hc. cbn zeta.
  unfold initializeVM, mbind, M_mbind, M_bind. rewrite Hp.
  unfold launch, mbind, M_mbind, M_bind. rewrite Hc.
  destruct volErr as [err|].
  - unfold emit, mret, M_mret, M_ret, logFatalf, exit, mbind, M_mbind, M_bind.
    cbn [app]. rewrite <- !app_assoc.
    destruct (run h _) as [out [e|]]; cbn [app]; reflexivity.
  - unfold emit, mret, M_mret, M_ret, logFatalf, exit, mbind, M_mbind, M_bind.
    cbn [app]. rewrite <- !app_assoc.
    destruct (run h _) as [out [e|]]; cbn [app]; reflexivity.
Qed.

(** C10: when [initializeVM] has got to the volume and
    [CreatePersistentVolume] fails, it logs that the volume is skipped and
    runs the container all the same; whether it returns or exits depends on
    that run alone.  The arguments are those of a run with the volume (same
    host, user and image, the volume created) without the two of the
    [/data] mount. *)
Theorem C10_volume_failure_degrades
    h distro testMode w0 evs0 w rt tag u evs1 w1 vol err :
  prepare h distro testMode w0 = (evs0, w, Returned (rt, tag, u)) ->
  CreatePersistentVolume h distro w = (evs1, w1, Returned (vol, Some err)) ->
  let args :=
    baseArgs distro (Username u) (Uid u) (Gid u)
      ++ homeMount h (Username u) ++ [tag] in
  let skipped := EvLogln ["Cannot create volume. Skipping"%string] in
  initializeVM h distro testMode w0
  = match run h (rt :: args) with
    | (_, None) =>
        (evs0 ++ evs1 ++ [skipped; EvRun (rt :: args)], w1, Returned None)
    | (_, Some e) =>
        (evs0 ++ evs1
           ++ [skipped; EvRun (rt :: args);
               EvLogf "Failed to run VM due to error: %v" [Error e]],
         w1, Exited 1)
    end
  /\ (forall v0 es0 v es1 v1 vol',
      prepare h distro testMode v0 = (es0, v, Returned (rt, tag, u)) ->
      CreatePersistentVolume h distro v = (es1, v1, Returned (vol', None)) ->
      exists es o,
        initializeVM h distro testMode v0 = (es, v1, o)
        /\ EvRun (rt :: baseArgs distro (Username u) (Uid u) (Gid u)
                     ++ ["-v"%string; vol' +:+ ":/data"]
                     ++ homeMount h (Username u) ++ [tag]) ∈ es).
Proof.
  intros Hp Hc. cbn zeta. split.
  - apply (initializeVM_launch h distro testMode w0 evs0 w rt tag u
             evs1 w1 vol (Some err) Hp Hc).
  - intros v0 es0 v es1 v1 vol' Hp' Hc'.
    pose proof (initializeVM_launch h distro testMode v0 es0 v rt tag u
                  es1 v1 vol' None Hp' Hc') as Hi.
    cbn zeta in Hi. rewrite Hi.
    destruct (run h _) as [out [e|]]; eexists _, _; (split; [reflexivity|]);
      rewrite !elem_of_app, !elem_of_cons; tauto.
Qed.

Lemma C10_witness :
  let p := prepare homelessHost "debian" true (typed []) in
  let c := CreatePersistentVolume homelessHost "debian" p.1.2 in
  let u := {| Username := "me"; Uid := "501"; Gid := "20" |} in
  let args :=
    baseArgs "debian" (Username u) (Uid u) (Gid u)
      ++ homeMount homelessHost (Username u) ++ ["linuxformac-debian"%string] in
  initializeVM homelessHost "debian" true (typed [])
  = (p.1.1 ++ c.1.1
       ++ [EvLogln ["Cannot create volume. Skipping"%string];
           EvRun ("podman"%string :: args)],
     c.1.2, Returned None).
Proof.
  intros p c u args.
  apply (C10_volume_failure_degrades homelessHost "debian" true (typed [])
           p.1.1 p.1.2 "podman" "linuxformac-debian" u c.1.1 c.1.2 ""
           (Wrap "get home dir: " (OSError "$HOME is not defined"))).
  - reflexivity.
  - reflexivity.
Defined.

(** * The menu on the screen and the scenarios of the specification *)

(** A render of the five distros takes nine lines whatever is selected, the
    nine the loop moves the cursor up by before it reads. *)
Lemma render_height selected :
  printedLines (render distroList selected) = 9%nat
  /\ cursorUp (len distroList + 4) = ESC +:+ "[9A".
Proof.
  split; [|reflexivity].
  unfold render, distroList, renderLine. cbn [imap app]. unfold compose.
  repeat case_decide; reflexivity.
Qed.

(** The first render marks [choices[0]]. *)
Example first_render_marks_ubuntu :
  (render distroList 0) !! 2%nat
  = Some (EvPrint ("  " +:+ ESC +:+ "[1;36m> ubuntu" +:+ ESC +:+ "[0m" +:+ CRLF)).
Proof. reflexivity. Qed.

Example up_at_top_then_enter :
  (selectDistro macHost (typed [arrowUp; enter])).2
  = Returned ("ubuntu"%string, None).
Proof. reflexivity. Qed.

Example down_past_the_end_then_enter :
  (selectDistro macHost
     (typed [arrowDown; arrowDown; arrowDown; arrowDown; arrowDown; arrowDown;
             enter])).2
  = Returned ("alpine"%string, None).
Proof. reflexivity. Qed.

Example split_escape_is_not_an_arrow :
  (selectDistro macHost
     (typed [ReadOk [x1b]; ReadOk ["["%byte; "B"%byte]; enter])).2
  = Returned ("ubuntu"%string, None).
Proof. reflexivity. Qed.

Example launch_with_volume :
  let r := main macHost ["linuxformac"; "debian"]%string (typed []) in
  r.2 = Returned tt
  /\ nodes r.1.2 !! "/Users/me/debian_Volume"%string = Some Dir
  /\ last r.1.1
     = Some (EvRun ["podman"; "run"; "-it"; "--rm"; "--hostname"; "debian";
                    "-e"; "HOST_USER=me"; "-e"; "HOST_UID=501";
                    "-e"; "HOST_GID=20"; "-e"; "DISTRO_TYPE=debian";
                    "-v"; "/Users/me/debian_Volume:/data";
                    "-v"; "/Users/me:/home/me"; "linuxformac-debian"]%string).
Proof. vm_compute. auto. Qed.

(** * More about the menu *)

Lemma lineFeeds_app a b : lineFeeds (a +:+ b) = (lineFeeds a + lineFeeds b)%nat.
Proof.
  induction a as [|c a IH]; [reflexivity|].
  change (String c a +:+ b) with (String c (a +:+ b)).
  cbn [lineFeeds]. rewrite IH. lia.
Qed.

Lemma printedLines_app evs evs' :
  printedLines (evs ++ evs') = (printedLines evs + printedLines evs')%nat.
Proof.
  induction evs as [|e evs IH]; [reflexivity|].
  change ((e :: evs) ++ evs') with (e :: (evs ++ evs')).
  unfold printedLines in *. cbn [foldr]. rewrite IH. destruct e; lia.
Qed.

Lemma printedLines_imap (f : nat -> string -> event) (l : list string) :
  (forall i d, d ∈ l -> printedLines [f i d] = 1%nat) ->
  printedLines (imap f l) = length l.
Proof.
  revert f. induction l as [|d l IH]; intros f Hf; [reflexivity|].
  cbn [imap length].
  change (f 0%nat d :: imap (f ∘ S) l) with ([f 0%nat d] ++ imap (f ∘ S) l).
  rewrite printedLines_app, Hf by left.
  rewrite IH; [lia|]. intros i x Hx. apply Hf. now right.
Qed.

(** X1: what a read left in the buffer never reaches a later pass: the loop
    does the same from any two buffers, pass by pass with the same events,
    although a short read keeps the bytes behind it. *)
Theorem stale_bytes_never_matter (choices : list string) r rs selected buf buf' :
  menuLoop choices (r :: rs) selected buf
  = menuLoop choices (r :: rs) selected buf'
  /\ (pass choices r selected buf).1 = (pass choices r selected buf').1
  /\ (forall x, b1 (fill [x] buf) = b1 buf /\ b2 (fill [x] buf) = b2 buf).
Proof.
  split; [apply menuLoop_buf|]. split; [|done].
  unfold pass. destruct r as [data|e]; [|reflexivity].
  rewrite (dispatch_fill choices data buf buf').
  now destruct (dispatch _ _ _ _).
Qed.

(** X2: a render prints as many lines as the loop moves the cursor up by
    before the next one, [len(distroList) + 4], whatever is selected, as
    long as no label holds a line feed: the menu is redrawn in place. *)
Theorem render_fits_cursor_up (choices : list string) selected :
  Forall (fun d => lineFeeds d = 0%nat) choices ->
  Z.of_nat (printedLines (render choices selected)) = len choices + 4.
Proof.
  intros Hl. unfold render, len. rewrite !printedLines_app.
  rewrite printedLines_imap.
  - change (printedLines [EvPrint clearDown;
              EvPrint ("Select a Linux distribution:" +:+ CRLF +:+ CRLF)])
      with 2%nat.
    change (printedLines [EvPrint (CRLF
              +:+ "Use arrow keys to navigate, Enter to select, q to quit."
              +:+ CRLF)]) with 2%nat.
    lia.
  - intros i d Hd. rewrite Forall_forall in Hl. specialize (Hl d Hd).
    unfold renderLine. case_decide; cbn [printedLines foldr];
      rewrite ?lineFeeds_app, Hl; reflexivity.
Qed.

Lemma render_fits_cursor_up_witness :
  Z.of_nat (printedLines (render distroList 3)) = len distroList + 4.
Proof.
  apply (render_fits_cursor_up distroList 3). repeat constructor.
Defined.

Section Outcomes.
Variable choices : list string.

Lemma menuLoop_outcome rs : forall selected buf evs rest o,
  0 <= selected < len choices ->
  menuLoop choices rs selected buf = (evs, rest, o) ->
  (o = Blocked /\ rest = [])
  \/ (exists d, o = Returned (d, None) /\ d ∈ choices)
  \/ (exists err, o = Returned (""%string, Some err)).
Proof.
  induction rs as [|r rs IH]; intros selected buf evs rest o Hr; cbn [menuLoop].
  - intros [= _ <- <-]. now left.
  - destruct (pass choices r selected buf) as [evs1 [[s b]|o1]] eqn:Hp.
    + destruct (menuLoop choices rs s b) as [[evs2 r2] o2] eqn:Hl.
      intros [= _ <- <-]. eapply IH; [|exact Hl]. eapply pass_range; eauto.
    + intros [= _ _ <-]. right. unfold pass in Hp. destruct r as [data|e].
      * destruct (dispatch _ _ _ _); [| |discriminate].
        -- simplify_eq. right. eauto.
        -- unfold index in Hp. rewrite decide_True in Hp by lia.
           destruct (lookup_lt_is_Some_2 choices (Z.to_nat selected)) as [d Hd];
             [unfold len in Hr; lia|].
           rewrite Hd in Hp. simplify_eq. left. exists d. split; [done|].
           eapply list_elem_of_lookup_2, Hd.
      * simplify_eq. right. eauto.
Qed.

Lemma count_app f evs evs' :
  count f (evs ++ evs') = (count f evs + count f evs')%nat.
Proof. unfold count. now rewrite filter_app, length_app. Qed.

Lemma count_cons f e evs :
  count f (e :: evs) = ((if f e then 1 else 0) + count f evs)%nat.
Proof.
  unfold count. destruct (f e) eqn:He.
  - now rewrite filter_cons_True.
  - rewrite filter_cons_False by congruence. reflexivity.
Qed.

Lemma count_none f evs :
  Forall (fun e => f e = false) evs -> count f evs = 0%nat.
Proof.
  unfold count. induction 1 as [|e evs He _ IH]; [reflexivity|].
  rewrite filter_cons_False by congruence. exact IH.
Qed.

Lemma render_menuCall selected :
  Forall (fun e => menuCall e = true /\ isRead e = false)
    (render choices selected).
Proof.
  unfold render. rewrite !Forall_app.
  split_and!; [by repeat constructor| |by repeat constructor].
  apply Forall_forall. intros e He.
  apply elem_of_lookup_imap in He as (i & d & -> & _).
  unfold renderLine. now case_decide.
Qed.

Lemma render_reads selected : count isRead (render choices selected) = 0%nat.
Proof.
  apply count_none. eapply Forall_impl; [apply render_menuCall|]. now intros e [_ ?].
Qed.

Lemma render_menuCalls selected :
  Forall (fun e => menuCall e = true) (render choices selected).
Proof. eapply Forall_impl; [apply render_menuCall|]. now intros e [? _]. Qed.

Lemma pass_reads r selected buf evs x :
  pass choices r selected buf = (evs, x) ->
  count isRead evs = 1%nat /\ Forall (fun e => menuCall e = true) evs.
Proof.
  unfold pass. destruct r as [data|e].
  - destruct (dispatch _ _ _ _) as [| |s]; intros [= <- _].
    + split; [reflexivity|by repeat constructor].
    + split; [reflexivity|by repeat constructor].
    + rewrite ?count_app, ?count_cons, render_reads. split; [reflexivity|].
      repeat first [ apply render_menuCalls | constructor; [reflexivity|]
                   | apply Forall_app; split ].
  - intros [= <- _]. split; [reflexivity|by repeat constructor].
Qed.

Lemma menuLoop_reads rs : forall selected buf evs rest o,
  menuLoop choices rs selected buf = (evs, rest, o) ->
  Forall (fun e => menuCall e = true) evs
  /\ exists used,
      rs = used ++ rest
      /\ count isRead evs
         = (length used + match o with Blocked => 1 | _ => 0 end)%nat.
Proof.
  induction rs as [|r rs IH]; intros selected buf evs rest o; cbn [menuLoop].
  - intros [= <- <- <-]. split; [by repeat constructor|]. now exists [].
  - destruct (pass choices r selected buf) as [evs1 [[s b]|o1]] eqn:Hp;
      destruct (pass_reads _ _ _ _ _ Hp) as [Hc Hm].
    + destruct (menuLoop choices rs s b) as [[evs2 r2] o2] eqn:Hl.
      intros [= <- <- <-].
      destruct (IH _ _ _ _ _ Hl) as (Hm2 & used & -> & Hc2).
      split; [now apply Forall_app|].
      exists (r :: used). split; [reflexivity|].
      rewrite count_app, Hc, Hc2. cbn [length]. lia.
    + intros [= <- <- <-]. split; [exact Hm|].
      exists [r]. split; [reflexivity|]. rewrite Hc. cbn [length].
      unfold pass in Hp. destruct r as [data|e].
      * destruct (dispatch _ _ _ _); [| |discriminate]; simplify_eq; [done|].
        now destruct (index choices selected).
      * now simplify_eq.
Qed.
End Outcomes.

(** X3: with a list that is not empty the selector never panics and never
    exits the process.  Either it is still waiting, in raw mode with all
    input used up, or it returned a label of the list with no error, or an
    empty label with an error; when it returned the terminal mode is the
    one it found. *)
Theorem selector_returns_or_waits (choices : list string) h w evs w' o :
  choices <> [] ->
  selectFrom choices h w = (evs, w', o) ->
  (o = Blocked /\ tty w' = Raw /\ stdin w' = [])
  \/ (exists d, o = Returned (d, None) /\ d ∈ choices /\ tty w' = tty w)
  \/ (exists err, o = Returned (""%string, Some err) /\ tty w' = tty w).
Proof.
  intros Hne Hs. destruct (makeRaw_err h) as [e|] eqn:Hraw.
  { unfold selectFrom in Hs. rewrite Hraw in Hs. simplify_eq. right. right. eauto. }
  destruct (menuLoop choices (stdin w) 0 zeroBuf) as [[evs1 rest] o1] eqn:Hl.
  rewrite (selectFrom_raw _ _ _ _ _ _ Hraw Hl) in Hs.
  assert (0 <= 0 < len choices) as Hr
    by (unfold len; destruct choices; [done|cbn [length]; lia]).
  destruct (menuLoop_outcome choices _ _ _ _ _ _ Hr Hl)
    as [[-> ->] | [(d & -> & Hd) | (err & ->)] ]; simplify_eq.
  - now left.
  - right. left. eauto.
  - right. right. eauto.
Qed.

Lemma selector_returns_or_waits_witness :
  let s := selectFrom distroList macHost (typed [arrowDown; enter]) in
  (s.2 = Blocked /\ tty s.1.2 = Raw /\ stdin s.1.2 = [])
  \/ (exists d, s.2 = Returned (d, None) /\ d ∈ distroList /\ tty s.1.2 = Cooked)
  \/ (exists err, s.2 = Returned (""%string, Some err) /\ tty s.1.2 = Cooked).
Proof.
  intros s.
  apply (selector_returns_or_waits distroList macHost
           (typed [arrowDown; enter]) s.1.1 s.1.2 s.2); [discriminate|reflexivity].
Defined.

(** X4: with an empty list, enter is the index-out-of-range panic, at
    whatever was typed before; the menu has been cleared and the deferred
    call still restores the terminal. *)
Theorem empty_list_enter_panics h w pre rest :
  makeRaw_err h = None ->
  is_Some (advance [] pre 0 zeroBuf) ->
  stdin w = pre ++ enter :: rest ->
  exists body,
    selectFrom [] h w
    = (EvMakeRaw :: body ++ [EvPrint clearDown; EvRestore (tty w)],
       {| tty := tty w; stdin := rest; nodes := nodes w |}, Panicked).
Proof.
  intros Hraw [[[evs0 s] b] Ha] Hin.
  pose proof (menuLoop_app [] pre 0 zeroBuf evs0 s b (enter :: rest) Ha) as Hl.
  rewrite <- Hin in Hl. cbn [menuLoop pass enter enterKey] in Hl.
  change (dispatch [] (nread [x0d]) (fill [x0d] b) s) with Choose in Hl.
  assert (index (@nil string) s = None) as Hi by (unfold index; now case_decide).
  rewrite Hi in Hl.
  rewrite (selectFrom_raw _ _ _ _ _ _ Hraw Hl).
  eexists (render [] 0 ++ evs0 ++ [_; _]). f_equal. f_equal. f_equal.
  now rewrite <- !app_assoc.
Qed.

Lemma empty_list_enter_panics_witness :
  exists body,
    selectFrom [] macHost (typed [arrowDown; enter; enter])
    = (EvMakeRaw :: body ++ [EvPrint clearDown; EvRestore Cooked],
       {| tty := Cooked; stdin := [enter]; nodes := ∅ |}, Panicked).
Proof.
  apply (empty_list_enter_panics macHost (typed [arrowDown; enter; enter])
           [arrowDown] [enter]).
  - reflexivity.
  - eexists. reflexivity.
  - reflexivity.
Defined.

(** X5: the selector deals with the terminal only.  Its events are the
    terminal calls, reads and prints; it leaves the directory tree alone;
    it takes the reads from the front of standard input, one [Read] for
    each (and one more that is pending when it waits), and leaves the
    others in place. *)
Theorem selector_footprint (choices : list string) h w :
  let '(evs, w', o) := selectFrom choices h w in
  Forall (fun e => menuCall e = true) evs
  /\ nodes w' = nodes w
  /\ exists used,
      stdin w = used ++ stdin w'
      /\ count isRead evs
         = (length used + match o with Blocked => 1 | _ => 0 end)%nat.
Proof.
  destruct (makeRaw_err h) as [e|] eqn:Hraw.
  { unfold selectFrom. rewrite Hraw. split_and!; [by repeat constructor|done|].
    now exists []. }
  destruct (menuLoop choices (stdin w) 0 zeroBuf) as [[evs1 rest] o1] eqn:Hl.
  rewrite (selectFrom_raw _ _ _ _ _ _ Hraw Hl).
  destruct (menuLoop_reads choices _ _ _ _ _ _ Hl) as (Hm & used & Hu & Hc).
  pose proof (render_menuCalls choices 0) as Hr.
  assert (count isRead (render choices 0 ++ evs1)
          = (length used + match o1 with Blocked => 1 | _ => 0 end)%nat) as Hc'
    by (now rewrite count_app, render_reads).
  assert (Forall (fun e => menuCall e = true) (render choices 0 ++ evs1)) as Hm'
    by (now apply Forall_app).
  assert (forall l, count isRead (EvMakeRaw :: l) = count isRead l) as Hk
    by (intros l; apply (count_app isRead [EvMakeRaw] l)).
  assert (forall l m, count isRead (l ++ [EvRestore m]) = count isRead l) as Hk'.
  { intros l m. rewrite count_app. change (count isRead [EvRestore m]) with 0%nat. lia. }
  destruct o1; cbn [stdin nodes];
    (split_and!; [|done|exists used; split; [done|]]);
    rewrite ?Hk, ?Hk', ?Hc'; try done;
    repeat first [ exact Hm' | apply Forall_app; split
                 | constructor; [reflexivity|] | by constructor ].
Qed.

(** ** Line ends in raw mode *)

Lemma crlfFrom_no_lf s : forall p, lineFeeds s = 0%nat -> crlfFrom p s = true.
Proof.
  induction s as [|c s IH]; intros p; [reflexivity|].
  cbn [lineFeeds crlfFrom].
  destruct (Ascii.eqb c "010"); [discriminate|]. intros H. now apply IH.
Qed.

Lemma crlfFrom_app a b : forall p,
  lineFeeds a = 0%nat -> (forall q, crlfFrom q b = true) ->
  crlfFrom p (a +:+ b) = true.
Proof.
  induction a as [|c a IH]; intros p Ha Hb; [apply Hb|].
  change (String c a +:+ b) with (String c (a +:+ b)).
  cbn [lineFeeds crlfFrom] in *.
  destruct (Ascii.eqb c "010"); [discriminate|]. now apply IH.
Qed.

Lemma lineFeeds_pretty_N_go x : forall s,
  lineFeeds (pretty_N_go x s) = lineFeeds s.
Proof.
  induction (N.lt_wf_0 x) as [x _ IH]; intros s.
  destruct (decide (x = 0)%N) as [->|Hx]; [now rewrite pretty_N_go_0|].
  rewrite pretty_N_go_step by lia. rewrite IH by (apply N.div_lt; lia).
  cbn [lineFeeds]. unfold pretty_N_char. now repeat case_match.
Qed.

Lemma lineFeeds_pretty_Z (n : Z) : lineFeeds (pretty n) = 0%nat.
Proof.
  assert (forall m : N, lineFeeds (pretty m) = 0%nat) as HN.
  { intros m. unfold pretty, pretty_N. case_decide; [reflexivity|].
    apply lineFeeds_pretty_N_go. }
  destruct n as [|q|q]; [reflexivity|apply (HN (N.pos q))|].
  change (pretty (Z.neg q)) with ("-" +:+ pretty (N.pos q)).
  rewrite lineFeeds_app, HN. reflexivity.
Qed.

Lemma cursorUp_crlf n : crlfOnly (cursorUp n) = true.
Proof.
  apply crlfFrom_no_lf. unfold cursorUp.
  rewrite !lineFeeds_app, lineFeeds_pretty_Z. reflexivity.
Qed.

Lemma render_crlf (choices : list string) selected :
  Forall (fun d => lineFeeds d = 0%nat) choices ->
  Forall (fun e => crlfEvent e = true) (render choices selected).
Proof.
  intros Hl. unfold render. rewrite !Forall_app.
  split_and!; [by repeat constructor| |by repeat constructor].
  apply Forall_forall. intros e He.
  apply elem_of_lookup_imap in He as (i & d & -> & Hd).
  apply list_elem_of_lookup_2 in Hd.
  rewrite Forall_forall in Hl. specialize (Hl d Hd).
  unfold renderLine. case_decide; cbn [crlfEvent]; unfold crlfOnly.
  - apply crlfFrom_app; [reflexivity|]. intros q.
    apply crlfFrom_app; [reflexivity|]. intros q1.
    apply crlfFrom_app; [reflexivity|]. intros q2.
    apply crlfFrom_app; [exact Hl|]. now intros [].
  - apply crlfFrom_app; [reflexivity|]. intros q.
    apply crlfFrom_app; [exact Hl|]. now intros [].
Qed.

Lemma menuLoop_crlf (choices : list string) rs :
  Forall (fun d => lineFeeds d = 0%nat) choices ->
  forall selected buf evs rest o,
    menuLoop choices rs selected buf = (evs, rest, o) ->
    Forall (fun e => crlfEvent e = true) evs.
Proof.
  intros Hl. induction rs as [|r rs IH]; intros selected buf evs rest o;
    cbn [menuLoop].
  - intros [= <- _ _]. constructor; [apply cursorUp_crlf|]. by repeat constructor.
  - assert (forall ev x, pass choices r selected buf = (ev, x) ->
              Forall (fun e => crlfEvent e = true) ev) as Hpass.
    { unfold pass. intros ev x. destruct r as [data|e].
      - destruct (dispatch _ _ _ _); intros [= <- _];
          (constructor; [apply cursorUp_crlf|]); (constructor; [reflexivity|]);
          [by repeat constructor..|now apply render_crlf].
      - intros [= <- _]. constructor; [apply cursorUp_crlf|]. by repeat constructor. }
    destruct (pass choices r selected buf) as [evs1 [[s b]|o1]] eqn:Hp.
    + destruct (menuLoop choices rs s b) as [[evs2 r2] o2] eqn:Hm.
      intros [= <- _ _]. apply Forall_app. split; [eapply Hpass; eauto|].
      eapply IH, Hm.
    + intros [= <- _ _]. eapply Hpass; eauto.
Qed.

(** X6: as long as no label holds a line feed, every line feed the selector
    prints comes right after a carriage return, in each string it prints:
    in raw mode no line starts in the middle of the screen. *)
Theorem selector_prints_crlf (choices : list string) h w evs w' o :
  Forall (fun d => lineFeeds d = 0%nat) choices ->
  selectFrom choices h w = (evs, w', o) ->
  forall s, EvPrint s ∈ evs -> crlfOnly s = true.
Proof.
  intros Hl Hs s Hin.
  assert (Forall (fun e => crlfEvent e = true) evs) as Hall.
  { destruct (makeRaw_err h) as [e|] eqn:Hraw.
    { unfold selectFrom in Hs. rewrite Hraw in Hs. simplify_eq.
      by repeat constructor. }
    destruct (menuLoop choices (stdin w) 0 zeroBuf) as [[evs1 rest] o1] eqn:Hm.
    rewrite (selectFrom_raw _ _ _ _ _ _ Hraw Hm) in Hs.
    pose proof (menuLoop_crlf choices _ Hl _ _ _ _ _ Hm) as H1.
    pose proof (render_crlf choices 0 Hl) as H0.
    assert (Forall (fun e => crlfEvent e = true) (render choices 0 ++ evs1)) as H2
      by (now apply Forall_app).
    destruct o1; simplify_eq;
      repeat first [ exact H2 | apply Forall_app; split
                   | constructor; [reflexivity|] | by constructor ]. }
  rewrite Forall_forall in Hall. apply (Hall _ Hin).
Qed.

Lemma selector_prints_crlf_witness :
  crlfOnly (CRLF +:+ "Use arrow keys to navigate, Enter to select, q to quit."
            +:+ CRLF) = true.
Proof.
  apply (selector_prints_crlf distroList macHost (typed [enter])
           (selectDistro macHost (typed [enter])).1.1
           (selectDistro macHost (typed [enter])).1.2
           (selectDistro macHost (typed [enter])).2).
  - repeat constructor.
  - reflexivity.
  - apply (list_elem_of_lookup_2 _ 8%nat). reflexivity.
Defined.

(** * The launcher *)

Section Keeps.
Context {okE : event -> Prop} {R : world -> world -> Prop}.
Hypothesis R_refl : forall w, R w w.
Hypothesis R_trans : forall w1 w2 w3, R w1 w2 -> R w2 w3 -> R w1 w3.





Lemma keeps_defer {A} (cleanup : M unit) (body : M A) :
  keeps okE R cleanup -> keeps okE R body -> keeps okE R (defer cleanup body).
Proof.
  intros Hc Hb w evs w' o. unfold defer.
  destruct (body w) as [[evs1 w1] o1] eqn:Hbw.
  destruct (Hb _ _ _ _ Hbw) as (He & HR & Hf).
  destruct o1 as [a|c| |]; try (intros [= <- <- <-]; done);
    destruct (cleanup w1) as [[evs2 w2] o2] eqn:Hcw;
    destruct (Hc _ _ _ _ Hcw) as (He2 & HR2 & _);
    intros [= <- <- <-]; (split_and!; [now apply Forall_app|eauto|done]).
Qed.


End Keeps.


(** The [which] loop: the tools found, in order, behind those it was given;
    its events are the [which] commands and log lines. *)
Lemma probe_result h cs : forall present w,
  exists evs,
    probe h cs present w
    = (evs, w, Returned (present ++ base.filter (fun c => found h c = true) cs))
    /\ Forall (fun e => (exists c, e = EvRun ["bash"; "-c"; "which " +:+ c]%string)
                        \/ outsideCall e = false /\ ttyCall e = false) evs.
Proof.
  induction cs as [|c cs IH]; intros present w.
  - exists []. rewrite app_nil_r. split; [reflexivity|constructor].
  - cbn [probe]. unfold found at 1. unfold mbind, M_mbind, M_bind, emit.
    destruct (run h ["bash"; "-c"; "which " +:+ c]%string) as [out [err|]] eqn:Hrun.
    + destruct (IH present w) as (evs & -> & Hev).
      eexists. split.
      * cbn [app]. rewrite filter_cons_False; [reflexivity|].
        unfold found. rewrite Hrun. discriminate.
      * constructor; [left; eauto|]. constructor; [right; done|exact Hev].
    + destruct (IH (present ++ [c]) w) as (evs & -> & Hev).
      eexists. split.
      * cbn [app]. rewrite filter_cons_True; [now rewrite <- app_assoc|].
        unfold found. now rewrite Hrun.
      * constructor; [left; eauto|]. constructor; [right; done|exact Hev].
Qed.

Lemma bind_returned {A B} (m : M A) (k : A -> M B) w evs w1 a :
  m w = (evs, w1, Returned a) ->
  (m ≫= k) w = (let '(evs', w2, o) := k a w1 in (evs ++ evs', w2, o)).
Proof. intros H. unfold mbind, M_mbind, M_bind. now rewrite H. Qed.

Lemma bind_returned_inv {A B} (m : M A) (k : A -> M B) w evs w' b :
  (m ≫= k) w = (evs, w', Returned b) ->
  exists evs1 w1 a evs2,
    m w = (evs1, w1, Returned a) /\ k a w1 = (evs2, w', Returned b)
    /\ evs = evs1 ++ evs2.
Proof.
  unfold mbind, M_mbind, M_bind. destruct (m w) as [[evs1 w1] [a|c| |]]; try discriminate.
  destruct (k a w1) as [[evs2 w2] o2] eqn:Hk. intros [= <- <- ->].
  now exists evs1, w1, a, evs2.
Qed.

(** X7: the [which] loop asks once for each tool and runs nothing else; it
    returns the tools that were found, in the order asked, behind those it
    was given, and leaves the world alone.  For podman and docker the
    first of the result is podman whenever podman is found. *)
Theorem probe_finds_in_order h cs present w :
  (exists evs,
     probe h cs present w
     = (evs, w, Returned (present ++ base.filter (fun c => found h c = true) cs))
     /\ base.filter (fun e => isRun e = true) evs
        = (fun c => EvRun ["bash"; "-c"; "which " +:+ c]%string) <$> cs)
  /\ (forall v,
      exists evs tools,
        probe h ["podman"; "docker"]%string [] v = (evs, v, Returned tools)
        /\ head tools = firstTool h).
Proof.
  split.
  - revert present w. induction cs as [|c cs IH]; intros present w.
    + exists []. rewrite app_nil_r. split; reflexivity.
    + cbn [probe]. unfold mbind, M_mbind, M_bind, emit.
      destruct (run h ["bash"; "-c"; "which " +:+ c]%string) as [out [err|]] eqn:Hrun.
      * destruct (IH present w) as (evs & -> & Hev).
        eexists. split.
        -- cbn [app]. rewrite filter_cons_False; [reflexivity|].
           unfold found. rewrite Hrun. discriminate.
        -- rewrite filter_cons_True by done. rewrite filter_cons_False by done.
           rewrite Hev. reflexivity.
      * destruct (IH (present ++ [c]) w) as (evs & -> & Hev).
        eexists. split.
        -- cbn [app]. rewrite filter_cons_True; [now rewrite <- app_assoc|].
           unfold found. now rewrite Hrun.
        -- rewrite filter_cons_True by done. rewrite filter_cons_False by done.
           rewrite Hev. reflexivity.
  - intros v. destruct (probe_result h ["podman"; "docker"]%string [] v)
      as (evs & Hp & _).
    eexists _, _. split; [exact Hp|].
    unfold firstTool. cbn [app].
    destruct (found h "podman") eqn:H1.
    + rewrite filter_cons_True by done. reflexivity.
    + rewrite filter_cons_False by congruence.
      destruct (found h "docker") eqn:H2.
      * rewrite filter_cons_True by done. reflexivity.
      * rewrite filter_cons_False by congruence. reflexivity.
Qed.

(** [buildImage] case by case. *)
Lemma buildImage_cases h tool distro w :
  buildImage h tool distro w
  = let tag := "linuxformac-" +:+ distro in
    let inspect := [tool; "image"; "inspect"; tag]%string in
    match run h inspect with
    | (_, None) =>
        ([EvRun inspect; EvLogf "Image %s already exists, reusing." [tag]],
         w, Returned (tag, None))
    | (_, Some _) =>
        match embeddedFiles h with
        | inr err =>
            ([EvRun inspect; EvLogf "Building custom image %s..." [tag]],
             w, Returned (""%string, Some (Wrap "write build context: " err)))
        | inl ctx =>
            let build := [tool; "build"; "-t"; tag; "-f";
                          ctx +:+ "/" +:+ "Dockerfile." +:+ distro; ctx]%string in
            match run h build with
            | (_, Some err) =>
                ([EvRun inspect; EvLogf "Building custom image %s..." [tag];
                  EvRun build; EvRemoveAll ctx],
                 w,
                 Returned (""%string,
                           Some (Wrap ("build image " +:+ tag +:+ ": ") err)))
            | (_, None) =>
                ([EvRun inspect; EvLogf "Building custom image %s..." [tag];
                  EvRun build; EvLogf "Image %s built successfully." [tag];
                  EvRemoveAll ctx],
                 w, Returned (tag, None))
            end
        end
    end.
Proof.
  unfold buildImage. cbn zeta.
  unfold mbind, M_mbind, M_bind, emit, writeEmbeddedFiles, defer, mret, M_mret, M_ret.
  destruct (run h [tool; _; _; _]) as [out [e|]]; [|reflexivity].
  destruct (embeddedFiles h) as [ctx|err]; [|reflexivity].
  destruct (run h _) as [out2 [e2|]]; reflexivity.
Qed.



Lemma found_tools h :
  exists rest,
    base.filter (fun c => found h c = true) ["podman"; "docker"]%string
    = match firstTool h with
      | None => []
      | Some t => t :: rest
      end.
Proof.
  unfold firstTool. destruct (found h "podman") eqn:H1.
  - rewrite filter_cons_True by done. by eexists.
  - rewrite filter_cons_False by congruence. destruct (found h "docker") eqn:H2.
    + rewrite filter_cons_True by done. by eexists.
    + rewrite filter_cons_False by congruence. by exists [].
Qed.

Lemma buildImage_returns h tool distro w evs w' tag :
  buildImage h tool distro w = (evs, w', Returned (tag, None)) <->
  exists evs0,
    evs = evs0 /\ w' = w /\ tag = "linuxformac-" +:+ distro
    /\ imageReady h tool distro
    /\ buildImage h tool distro w = (evs0, w, Returned (tag, None)).
Proof.
  split; [|intros (evs0 & -> & -> & _ & _ & H); exact H].
  intros Hb. exists evs. pose proof Hb as Hb'. rewrite buildImage_cases in Hb.
  unfold imageReady. cbn zeta in *.
  destruct (run h [tool; _; _; _]) as [out [e|]]; cbn [snd].
  - destruct (embeddedFiles h) as [ctx|err]; [|discriminate].
    destruct (run h [tool; "build"%string; _; _; _; _; _]) as [out2 [e2|]] eqn:Hr;
      [discriminate|].
    simplify_eq. split_and!; try done. right. exists ctx. now rewrite Hr.
  - simplify_eq. split_and!; try done. now left.
Qed.

(** X9: [prepare], the checks of [initializeVM] before the volume, passes
    exactly when the platform is not Windows (and, on Linux, test mode is
    on), the distro has an image in [distroPath], podman or docker is
    found, the image is there or can be built, the current user is known
    and both ids are numbers.  It then hands on the first tool found,
    podman before docker, the tag [linuxformac-<distro>] and the user, and
    the world is as before. *)
Theorem prepare_passes_iff h distro testMode w tool tag u :
  ((exists evs w', prepare h distro testMode w = (evs, w', Returned (tool, tag, u)))
   <->
   (platformOk h testMode
    /\ is_Some (distroPath !! distro)
    /\ firstTool h = Some tool
    /\ tag = "linuxformac-" +:+ distro
    /\ imageReady h tool distro
    /\ currentUser h = inl u
    /\ (exists n, Atoi (Uid u) = inl n) /\ (exists n, Atoi (Gid u) = inl n)))
  /\ (forall evs w',
      prepare h distro testMode w = (evs, w', Returned (tool, tag, u)) -> w' = w).
Proof.
  assert (forall evs w',
    prepare h distro testMode w = (evs, w', Returned (tool, tag, u)) ->
    w' = w
    /\ platformOk h testMode
    /\ is_Some (distroPath !! distro)
    /\ firstTool h = Some tool
    /\ tag = "linuxformac-" +:+ distro
    /\ imageReady h tool distro
    /\ currentUser h = inl u
    /\ (exists n, Atoi (Uid u) = inl n) /\ (exists n, Atoi (Gid u) = inl n)) as Hinv.
  { intros evs w' Hp. unfold prepare in Hp.
    apply bind_returned_inv in Hp as (evs1 & w1 & [] & evs2 & Hgate & Hp & _).
    assert (w1 = w /\ platformOk h testMode) as [-> Hplat].
    { unfold platformOk.
      destruct (String.eqb_spec (GOOS h) "linux") as [Hl|Hl].
      - destruct testMode; cbn [negb] in Hgate.
        + unfold mbind, M_mbind, M_bind, emit, mret, M_mret, M_ret in Hgate.
          simplify_eq. split; [done|]. split; [congruence|done].
        + discriminate.
      - destruct (String.eqb_spec (GOOS h) "windows") as [Hw|Hw]; [discriminate|].
        destruct (String.eqb_spec (GOOS h) "darwin");
          unfold mbind, M_mbind, M_bind, emit, mret, M_mret, M_ret in Hgate;
          simplify_eq; done. }
    destruct (distroPath !! distro) as [img|] eqn:Hsup; [|discriminate].
    apply bind_returned_inv in Hp as (? & ? & [] & evs3 & [= <- <-] & Hp & _).
    apply bind_returned_inv in Hp as (? & w2 & present & evs4 & Hprobe & Hp & _).
    destruct (probe_result h ["podman"; "docker"]%string [] w) as (pe & Hpr & _).
    rewrite Hpr in Hprobe. injection Hprobe as _ <- <-. cbn [app] in Hp.
    destruct (found_tools h) as [rest Hrest].
    rewrite Hrest in Hp. destruct (firstTool h) as [t|]; [|discriminate].
    apply bind_returned_inv in Hp as (? & ? & [] & evs5 & [= <- <-] & Hp & _).
    apply bind_returned_inv in Hp as (? & w3 & [tg berr] & evs6 & Hbuild & Hp & _).
    destruct berr as [?|]; [discriminate|].
    apply buildImage_returns in Hbuild as (_ & _ & -> & -> & Hready & _).
    apply bind_returned_inv in Hp as (? & ? & [] & evs7 & [= <- <-] & Hp & _).
    apply bind_returned_inv in Hp as (? & ? & [] & evs8 & [= <- <-] & Hp & _).
    destruct (currentUser h) as [cu|?]; [|discriminate].
    destruct (Atoi (Uid cu)) as [n1|?] eqn:Hu; [|discriminate].
    destruct (Atoi (Gid cu)) as [n2|?] eqn:Hg; [|discriminate].
    unfold mret, M_mret, M_ret in Hp. simplify_eq. split_and!; eauto. }
  split; [split|].
  - intros (evs & w' & Hp). now destruct (Hinv _ _ Hp) as (_ & ?).
  - intros ((Hwin & Hlin) & [img Hsup] & Htool & -> & Hready & Hu & [n1 H1] & [n2 H2]).
    assert (exists evs, (if String.eqb (GOOS h) "linux" then
               (if negb testMode
                then logFatal ["Operating System: Linux. Pass --test to run."%string]
                else mret ());;
               emit (EvLogln ["Operating system: "%string; GOOS h]);;
               emit (EvLogln ["Architecture: "%string; GOARCH h])
             else if String.eqb (GOOS h) "windows" then
               logFatal ["Operating System: Windows. Use WSLv2."%string]
             else if String.eqb (GOOS h) "darwin" then
               emit (EvLogln ["Operating system: "%string; GOOS h]);;
               emit (EvLogln ["Architecture: "%string; GOARCH h])
             else mret ()) w = (evs, w, Returned ())) as [ge Hgate].
    { destruct (String.eqb_spec (GOOS h) "linux") as [Hl|Hl].
      - rewrite (Hlin Hl). eexists. reflexivity.
      - destruct (String.eqb_spec (GOOS h) "windows") as [Hw|Hw]; [done|].
        destruct (String.eqb_spec (GOOS h) "darwin"); eexists; reflexivity. }
    destruct (probe_result h ["podman"; "docker"]%string [] w) as (pe & Hpr & _).
    destruct (found_tools h) as [rest Hrest].
    cbn [app] in Hpr. rewrite Hrest, Htool in Hpr.
    assert (exists evs, buildImage h tool distro w
                        = (evs, w, Returned ("linuxformac-" +:+ distro, None)))
      as [be Hbuild].
    { rewrite buildImage_cases. unfold imageReady in Hready. cbn zeta in *.
      destruct (run h [tool; _; _; _]) as [out [e|]]; cbn [snd] in Hready.
      - destruct Hready as [?|(ctx & -> & Hb)]; [done|].
        destruct (run h _) as [out2 [e2|]]; [done|]. eauto.
      - eauto. }
    unfold prepare. rewrite (bind_returned _ _ _ _ _ _ Hgate). rewrite Hsup.
    unfold mbind at 1, M_mbind at 1, M_bind at 1, emit at 1.
    rewrite (bind_returned _ _ _ _ _ _ Hpr).
    unfold mbind at 1, M_mbind at 1, M_bind at 1, emit at 1.
    rewrite (bind_returned _ _ _ _ _ _ Hbuild).
    unfold mbind, M_mbind, M_bind, emit, mret, M_mret, M_ret.
    rewrite Hu, H1, H2. eauto.
  - intros evs w' Hp. now destruct (Hinv _ _ Hp) as (? & _).
Qed.

(** ** What the launcher leaves alone *)










Lemma ret_bind {A B} (a : A) (k : A -> M B) w : (mret a ≫= k) w = k a w.
Proof.
  unfold mbind, M_mbind, M_bind, mret, M_mret, M_ret.
  now destruct (k a w) as [[evs w'] o].
Qed.

(** [initializeVM] stops at its first checks. *)
Lemma initializeVM_refuses h distro testMode w :
  distroPath !! distro = None \/ GOOS h = "windows"%string
    \/ (GOOS h = "linux"%string /\ testMode = false) ->
  exists evs,
    initializeVM h distro testMode w = (evs, w, Exited 1)
    /\ Forall (fun e => outsideCall e = false /\ ttyCall e = false) evs.
Proof.
  intros Hwhy. unfold initializeVM, prepare.
  unfold mbind, M_mbind, M_bind, logFatal, logFatalf, emit, exit, mret, M_mret, M_ret.
  destruct (String.eqb_spec (GOOS h) "linux") as [Hl|Hl].
  - destruct testMode; cbn [negb].
    + destruct (distroPath !! distro) eqn:Hd.
      * destruct Hwhy as [?|[Hw|[_ ?]]]; [done| |done]. rewrite Hl in Hw. discriminate.
      * eexists. split; [reflexivity|by repeat constructor].
    + eexists. split; [reflexivity|by repeat constructor].
  - destruct (String.eqb_spec (GOOS h) "windows") as [Hw|Hw].
    + eexists. split; [reflexivity|by repeat constructor].
    + destruct (distroPath !! distro) eqn:Hd.
      * destruct Hwhy as [?|[?|[? _]]]; done.
      * destruct (String.eqb_spec (GOOS h) "darwin");
          (eexists; split; [reflexivity|by repeat constructor]).
Qed.

Lemma test_flag rest :
  existsb (String.eqb "--test") rest = true <-> "--test"%string ∈ rest.
Proof.
  rewrite existsb_exists. split.
  - intros (x & Hin & Hx). apply String.eqb_eq in Hx as <-.
    now apply list_elem_of_In.
  - intros Hin. exists "--test"%string. split; [now apply list_elem_of_In|].
    apply String.eqb_refl.
Qed.

(** X10: called with a distro, [main] prints it and then gives up with
    status 1, before any command is run or any file touched and with the
    world as it was, when the distro has no image in [distroPath], on
    Windows, and on Linux unless [--test] is among the arguments behind
    the distro. *)
Theorem main_refuses h arg0 distro rest w :
  distroPath !! distro = None \/ GOOS h = "windows"%string
    \/ (GOOS h = "linux"%string /\ "--test"%string ∉ rest) ->
  exists evs,
    main h (arg0 :: distro :: rest) w
    = (EvPrint ("Linux Distro: " +:+ distro +:+ LF) :: evs, w, Exited 1)
    /\ Forall (fun e => outsideCall e = false /\ ttyCall e = false) evs.
Proof.
  intros Hwhy.
  destruct (initializeVM_refuses h distro (existsb (String.eqb "--test") rest) w)
    as (evs & Hi & Hev).
  { destruct Hwhy as [?|[?|[? Hn]]]; [tauto..|]. right. right. split; [done|].
    destruct (existsb _ rest) eqn:He; [|done]. now apply test_flag in He. }
  exists evs. split; [|exact Hev].
  unfold main. unfold mbind, M_mbind, M_bind, emit, mret, M_mret, M_ret.
  cbn [app]. rewrite Hi. reflexivity.
Qed.

Lemma main_refuses_witness :
  exists evs,
    main macHost ["linuxformac"; "gentoo"; "--test"]%string (typed [])
    = (EvPrint ("Linux Distro: " +:+ "gentoo" +:+ LF) :: evs, typed [], Exited 1)
    /\ Forall (fun e => outsideCall e = false /\ ttyCall e = false) evs.
Proof.
  apply (main_refuses macHost "linuxformac" "gentoo" ["--test"%string] (typed [])).
  left. reflexivity.
Defined.


(** X12: picking a distro at the menu is the same as naming it on the
    command line with [--test]: after the selector's events [main] goes on
    as [main] with those arguments does, from the world the selector left.
    So a selection is never turned away on Linux. *)
Theorem selection_is_argument_with_test h Args w evs w' d arg0 :
  (length Args < 2)%nat ->
  selectDistro h w = (evs, w', Returned (d, None)) ->
  main h Args w
  = let '(evs2, w2, o) := main h [arg0; d; "--test"%string] w' in
    (evs ++ evs2, w2, o).
Proof.
  intros Hlen Hs.
  assert (main h Args w
          = (p ← (r ← selectDistro h;
                  match r with
                  | (_, Some err) => logFatalf "Distro selection: %v" [Error err]
                  | (choice, None) => mret (choice, true)
                  end);
             let '(linuxDistro, testMode) := p in
             emit (EvPrint ("Linux Distro: " +:+ linuxDistro +:+ LF));;
             err ← initializeVM h linuxDistro testMode;
             match err with
             | Some e => emit (EvLogf "Error: %v" [Error e])
             | None => mret tt
             end) w) as ->.
  { destruct Args as [|a0 [|a1 rest]]; [reflexivity..|cbn in Hlen; lia]. }
  assert (main h [arg0; d; "--test"%string] w'
          = (emit (EvPrint ("Linux Distro: " +:+ d +:+ LF));;
             err ← initializeVM h d true;
             match err with
             | Some e => emit (EvLogf "Error: %v" [Error e])
             | None => mret tt
             end) w') as ->.
  { unfold main. rewrite ret_bind. reflexivity. }
  assert ((r ← selectDistro h;
           match r with
           | (_, Some err) => logFatalf "Distro selection: %v" [Error err]
           | (choice, None) => mret (choice, true)
           end) w = (evs, w', Returned (d, true))) as Hsel.
  { rewrite (bind_returned _ _ _ _ _ _ Hs).
    unfold mret, M_mret, M_ret. now rewrite app_nil_r. }
  rewrite (bind_returned _ _ _ _ _ _ Hsel). reflexivity.
Qed.

Lemma selection_is_argument_with_test_witness :
  let w := typed [arrowDown; enter] in
  let s := selectDistro macHost w in
  main macHost ["linuxformac"%string] w
  = let '(evs2, w2, o) :=
      main macHost ["linuxformac"; "debian"; "--test"]%string s.1.2 in
    (s.1.1 ++ evs2, w2, o).
Proof.
  intros w s.
  apply (selection_is_argument_with_test macHost ["linuxformac"%string] w
           s.1.1 s.1.2 "debian" "linuxformac").
  - cbn. lia.
  - reflexivity.
Defined.


(** * The first version of the launcher *)

(** The probes for podman and docker: the first tool found is the first of
    the result, and the commands run are the two probes. *)
Lemma probe_finds_tools h w :
  exists evs rest,
    probe h ["podman"; "docker"]%string [] w
    = (evs, w, Returned match firstTool h with
                        | None => []
                        | Some t => t :: rest
                        end)
    /\ base.filter (fun e => isRun e = true) evs
       = [EvRun ["bash"; "-c"; "which podman"];
          EvRun ["bash"; "-c"; "which docker"]]%string.
Proof.
  unfold firstTool, found. cbn [probe].
  unfold mbind, M_mbind, M_bind, emit, mret, M_mret, M_ret.
  change ("which " +:+ "podman") with "which podman"%string.
  change ("which " +:+ "docker") with "which docker"%string.
  destruct (run h ["bash"; "-c"; "which podman"]%string) as [o1 [e1|]];
    destruct (run h ["bash"; "-c"; "which docker"]%string) as [o2 [e2|]];
    cbn [snd app];
    first [ solve [eexists _, []; split; reflexivity]
          | solve [eexists _, _; split; reflexivity] ].
Qed.

(** The platform check of the first version lets through what is neither
    Linux nor Windows. *)
Lemma legacy_gate h w :
  GOOS h <> "linux"%string -> GOOS h <> "windows"%string ->
  exists evs,
    (if String.eqb (GOOS h) "linux" then
       logFatal ["Operating System: Linux. Doing nothing."%string]
     else if String.eqb (GOOS h) "windows" then
       logFatal ["Operating System: Windows. Use WSLv2."%string]
     else if String.eqb (GOOS h) "darwin" then
       emit (EvLogln ["Operating system: "%string; GOOS h]);;
       emit (EvLogln ["Architecture: "%string; GOARCH h])
     else mret tt) w = (evs, w, Returned tt)
    /\ Forall (fun e => outsideCall e = false) evs.
Proof.
  intros Hl Hw.
  destruct (String.eqb_spec (GOOS h) "linux"); [done|].
  destruct (String.eqb_spec (GOOS h) "windows"); [done|].
  destruct (String.eqb_spec (GOOS h) "darwin");
    (eexists; split; [reflexivity|by repeat constructor]).
Qed.

Lemma legacy_refuses h distro w :
  GOOS h = "linux"%string \/ GOOS h = "windows"%string
    \/ Legacy.distroPath !! distro = None \/ firstTool h = None ->
  exists evs,
    Legacy.initializeVM h distro w = (evs, w, Exited 1)
    /\ Forall (fun e => (exists c, e = EvRun ["bash"; "-c"; "which " +:+ c]%string)
                        \/ outsideCall e = false) evs.
Proof.
  intros Hwhy. unfold Legacy.initializeVM.
  destruct (String.eqb_spec (GOOS h) "linux") as [Hl|Hl].
  { eexists. split; [reflexivity|]. constructor; [by right|constructor]. }
  destruct (String.eqb_spec (GOOS h) "windows") as [Hw|Hw].
  { eexists. split; [reflexivity|]. constructor; [by right|constructor]. }
  destruct (legacy_gate h w Hl Hw) as (ge & Hgate & Hge).
  destruct (String.eqb_spec (GOOS h) "linux"); [done|].
  destruct (String.eqb_spec (GOOS h) "windows"); [done|].
  rewrite (bind_returned _ _ _ _ _ _ Hgate).
  destruct (probe_result h ["podman"; "docker"]%string [] w) as (pe & Hpr & Hpe).
  destruct (found_tools h) as [rest Hrest]. cbn [app] in Hpr. rewrite Hrest in Hpr.
  unfold mbind at 1, M_mbind at 1, M_bind at 1, emit at 1.
  rewrite (bind_returned _ _ _ _ _ _ Hpr).
  assert (Forall (fun e => (exists c, e = EvRun ["bash"; "-c"; "which " +:+ c]%string)
                           \/ outsideCall e = false) ge) as Hge'
    by (eapply Forall_impl; [exact Hge|]; now right).
  assert (Forall (fun e => (exists c, e = EvRun ["bash"; "-c"; "which " +:+ c]%string)
                           \/ outsideCall e = false) pe) as Hpe'
    by (eapply Forall_impl; [exact Hpe|]; intros e [?|[? _]]; auto).
  destruct (firstTool h) as [t|].
  - destruct (Legacy.distroPath !! distro) eqn:Hd.
    { destruct Hwhy as [?|[?|[?|?]]]; done. }
    eexists. split; [reflexivity|]. cbn [app].
    repeat first [ exact Hge' | exact Hpe' | apply Forall_app; split
                 | constructor; [right; reflexivity|] | constructor ].
  - eexists. split; [reflexivity|]. cbn [app].
    repeat first [ exact Hge' | exact Hpe' | apply Forall_app; split
                 | constructor; [right; reflexivity|] | constructor ].
Qed.

(** X14: the first version of [main] pulls and launches nothing, and leaves
    the world as it was, when it gets no distro or an empty one, on Linux
    and on Windows, for a distro that has no image in its [distroPath] and
    when neither podman nor docker is found.  The only commands it may
    have run by then are the [which] probes.  It returns for an empty
    distro name, panics on an empty [os.Args] and exits with status 1
    otherwise. *)
Theorem legacy_main_refuses h Args w :
  (forall arg0 d rest, Args = arg0 :: d :: rest ->
     d = ""%string \/ GOOS h = "linux"%string \/ GOOS h = "windows"%string
       \/ Legacy.distroPath !! d = None \/ firstTool h = None) ->
  let '(evs, w', o) := Legacy.main h Args w in
  w' = w
  /\ Forall (fun e => (exists c, e = EvRun ["bash"; "-c"; "which " +:+ c]%string)
                      \/ outsideCall e = false) evs
  /\ match Args with
     | [] => o = Panicked
     | [_] => o = Exited 1
     | _ :: d :: _ => if String.eqb d "" then o = Returned tt else o = Exited 1
     end.
Proof.
  intros Hwhy. destruct Args as [|arg0 [|d rest]].
  - split_and!; [done|constructor|done].
  - split_and!; [done|by repeat constructor|done].
  - unfold Legacy.main. destruct (String.eqb_spec d "") as [->|Hd].
    + split_and!; [done|by repeat constructor|done].
    + destruct (Hwhy arg0 d rest eq_refl) as [?|Hw]; [done|].
      destruct (legacy_refuses h d w Hw) as (evs & Hi & Hev).
      unfold mbind, M_mbind, M_bind, emit. rewrite Hi. cbn [app].
      split_and!; [done| |done]. constructor; [by right|exact Hev].
Qed.

Lemma legacy_main_refuses_witness :
  let r := Legacy.main macHost ["linuxformac"; "gentoo"]%string (typed []) in
  r.1.2 = typed [] /\ r.2 = Exited 1.
Proof.
  intros r.
  pose proof (legacy_main_refuses macHost ["linuxformac"; "gentoo"]%string (typed []))
    as H.
  change (Legacy.main macHost ["linuxformac"; "gentoo"]%string (typed [])) with r in H.
  destruct r as [[evs w'] o]. destruct H as (Hw & _ & Ho).
  - intros arg0 d rest [= <- <- <-]. right. right. right. left. reflexivity.
  - split; [exact Hw|exact Ho].
Defined.

(** X15: in the first version, once a tool is found, the distro has an
    image and the pull worked, the volume is made for the image's name
    (not the distro's) and the container is run whether that worked or
    not: without a volume as [run -it <image> /bin/bash], with one with
    [-v <volume>:/data] in front of the image.  Up to there the commands
    run are the two probes and the pull. *)
Theorem legacy_volume_failure_degrades h distro w tool image evs1 w1 vol volErr :
  GOOS h <> "linux"%string -> GOOS h <> "windows"%string ->
  firstTool h = Some tool ->
  Legacy.distroPath !! distro = Some image ->
  (run h [tool; "pull"; image]%string).2 = None ->
  CreatePersistentVolume h image w = (evs1, w1, Returned (vol, volErr)) ->
  let argv :=
    match volErr with
    | Some _ => [tool; "run"; "-it"; image; "/bin/bash"]%string
    | None => [tool; "run"; "-it"; "-v"; vol +:+ ":/data"; image; "/bin/bash"]%string
    end in
  let note :=
    match volErr with
    | Some _ => EvLogln ["Cannot create volume.Skipping"%string]
    | None => EvLogln ["Attaching volume: " +:+ vol +:+ " to " +:+ image]
    end in
  exists evs0,
    base.filter (fun e => isRun e = true) evs0
    = [EvRun ["bash"; "-c"; "which podman"]; EvRun ["bash"; "-c"; "which docker"];
       EvRun [tool; "pull"; image]]%string
    /\ Legacy.initializeVM h distro w
       = match run h argv with
         | (_, None) => (evs0 ++ evs1 ++ [note; EvRun argv], w1, Returned None)
         | (_, Some e) =>
             (evs0 ++ evs1
                ++ [note; EvRun argv;
                    EvLogf "Failed to run VM due to error: %v" [Error e]],
              w1, Exited 1)
         end.
Proof.
  intros Hl Hw Htool Himg Hpull Hvol. cbn zeta.
  destruct (legacy_gate h w Hl Hw) as (ge & Hgate & Hge).
  destruct (probe_finds_tools h w) as (pe & rest & Hpr & Hpe).
  rewrite Htool in Hpr.
  destruct (run h [tool; "pull"%string; image]) as [out perr] eqn:Hp.
  cbn [snd] in Hpull. subst perr.
  unfold Legacy.initializeVM. rewrite (bind_returned _ _ _ _ _ _ Hgate).
  unfold mbind at 1, M_mbind at 1, M_bind at 1, emit at 1.
  rewrite (bind_returned _ _ _ _ _ _ Hpr). rewrite Himg.
  unfold mbind, M_mbind, M_bind, emit, logFatalf, exit, mret, M_mret, M_ret.
  rewrite Hp, Hvol.
  assert (base.filter (fun e => isRun e = true) ge = []) as Hgf.
  { clear -Hge. induction Hge as [|e l He _ IH]; [reflexivity|].
    rewrite filter_cons_False; [exact IH|]. destruct e; done. }
  eexists (ge ++ [EvLogln ["Checking system for container software...."%string]]
           ++ pe
           ++ [EvLogln ["Initializing "%string; distro];
               EvLogln ["Pulling " +:+ image +:+ " using " +:+ tool];
               EvRun [tool; "pull"%string; image];
               EvLogln [out]; EvLogln ["Finished."%string];
               EvLogln ["Attempting to start VM...."%string];
               EvLogln ["Running container in Interactive Mode."%string]]).
  split.
  - rewrite !filter_app, Hgf, Hpe. reflexivity.
  - clear Hp. destruct volErr as [err|]; destruct (run h _) as [out2 [e|]];
      cbn [app]; rewrite <- ?app_assoc; cbn [app]; rewrite ?app_nil_r;
      repeat (rewrite <- ?app_assoc; cbn [app]); reflexivity.
Qed.

Lemma legacy_volume_failure_degrades_witness :
  let c := CreatePersistentVolume homelessHost "base/arch" (typed []) in
  exists evs0,
    base.filter (fun e => isRun e = true) evs0
    = [EvRun ["bash"; "-c"; "which podman"]; EvRun ["bash"; "-c"; "which docker"];
       EvRun ["podman"; "pull"; "base/arch"]]%string
    /\ Legacy.initializeVM homelessHost "arch" (typed [])
       = (evs0 ++ c.1.1
            ++ [EvLogln ["Cannot create volume.Skipping"%string];
                EvRun ["podman"; "run"; "-it"; "base/arch"; "/bin/bash"]%string],
          c.1.2, Returned None).
Proof.
  intros c.
  apply (legacy_volume_failure_degrades homelessHost "arch" (typed [])
           "podman" "base/arch" c.1.1 c.1.2 ""
           (Some (Wrap "get home dir: " (OSError "$HOME is not defined"))));
    [discriminate|discriminate|reflexivity..].
Defined.

(** * The build context *)

Lemma list_ascii_of_string_app a b :
  list_ascii_of_string (a +:+ b) = list_ascii_of_string a ++ list_ascii_of_string b.
Proof.
  induction a as [|c a IH]; [reflexivity|].
  change (String c a +:+ b) with (String c (a +:+ b)).
  cbn [list_ascii_of_string app]. now rewrite IH.
Qed.

Lemma element_no_slash cs :
  Forall (fun c => BuildContext.isSlash c = false) (BuildContext.element cs).
Proof.
  induction cs as [|c cs IH]; [constructor|].
  cbn [BuildContext.element]. destruct (BuildContext.isSlash c) eqn:Hc; by constructor.
Qed.

Lemma element_app cs rest :
  Forall (fun c => BuildContext.isSlash c = false) cs ->
  BuildContext.element (cs ++ "/"%char :: rest) = cs.
Proof.
  induction 1 as [|c cs Hc _ IH]; [reflexivity|].
  cbn [app BuildContext.element]. now rewrite Hc, IH.
Qed.

(** [filepath.Base] as the build context uses it.  The name it gives is
    never empty and holds no slash, unless it is the single slash of a path
    that was all slashes; and the name of a file joined to a directory is
    that name again, when the name is not empty and holds no slash. *)
Lemma Base_facts p :
  BuildContext.Base p <> ""%string
  /\ (BuildContext.Base p = "/"%string
      \/ Forall (fun c => BuildContext.isSlash c = false)
           (list_ascii_of_string (BuildContext.Base p)))
  /\ (forall dir,
      p <> ""%string ->
      Forall (fun c => BuildContext.isSlash c = false) (list_ascii_of_string p) ->
      BuildContext.Base (dir +:+ "/" +:+ p) = p).
Proof.
  split_and!.
  - unfold BuildContext.Base. destruct p as [|c p]; [discriminate|].
    destruct (reverse _) as [|x t]; [discriminate|]. discriminate.
  - unfold BuildContext.Base. destruct p as [|c p]; [right; by repeat constructor|].
    destruct (reverse _) as [|x t] eqn:Hr; [now left|]. right.
    rewrite list_ascii_of_string_of_list_ascii, <- Hr.
    apply Forall_reverse, element_no_slash.
  - intros dir Hne Hns. unfold BuildContext.Base.
    assert (exists c q, dir +:+ "/" +:+ p = String c q) as (c & q & Hq)
      by (destruct dir; cbn; eauto).
    rewrite Hq, <- Hq. clear c q Hq.
    rewrite !list_ascii_of_string_app. cbn [list_ascii_of_string app].
    rewrite reverse_app, reverse_cons, <- app_assoc. cbn [app].
    assert (exists x t, reverse (list_ascii_of_string p) = x :: t
                        /\ BuildContext.isSlash x = false) as (x & t & Hrev & Hx).
    { destruct (reverse (list_ascii_of_string p)) as [|x t] eqn:Hr.
      - apply (f_equal reverse) in Hr. rewrite reverse_involutive in Hr.
        destruct p; [done|discriminate].
      - exists x, t. split; [done|].
        assert (x ∈ reverse (list_ascii_of_string p)) as Hin by (rewrite Hr; left).
        rewrite elem_of_reverse in Hin. rewrite Forall_forall in Hns. auto. }
    assert (BuildContext.dropSlashes
              (reverse (list_ascii_of_string p)
                 ++ "/"%char :: reverse (list_ascii_of_string dir))
            = reverse (list_ascii_of_string p)
                ++ "/"%char :: reverse (list_ascii_of_string dir)) as ->.
    { rewrite Hrev. cbn [app BuildContext.dropSlashes]. now rewrite Hx. }
    rewrite element_app by now apply Forall_reverse.
    rewrite reverse_involutive.
    destruct (list_ascii_of_string p) as [|y l] eqn:Hl.
    + destruct p; [done|discriminate].
    + rewrite <- Hl. apply string_of_list_ascii_of_string.
Qed.

Lemma visit_ops fs tmpDir d ops r :
  BuildContext.visit fs tmpDir d = (ops, r) ->
  Forall (fun o => BuildContext.isRemove o = false) ops
  /\ (r = None ->
      base.filter (fun o => BuildContext.isWrite o = true) ops
      = option_list (BuildContext.copyOf tmpDir d)
      /\ BuildContext.walkErr d = None
      /\ (BuildContext.IsDir d = false -> exists data, BuildContext.content d = inl data)).
Proof.
  unfold BuildContext.visit, BuildContext.copyOf.
  destruct (BuildContext.walkErr d) as [e|].
  { intros [= <- <-]. split; [constructor|discriminate]. }
  destruct (BuildContext.IsDir d).
  { intros [= <- <-]. split; [constructor|]. intros _. split_and!; [done..|discriminate]. }
  destruct (BuildContext.content d) as [data|e].
  - destruct (BuildContext.writeFile_err fs _) as [e|]; intros [= <- <-];
      (split; [by repeat constructor|]); [discriminate|].
    intros _. split_and!; [done..|]. eauto.
  - intros [= <- <-]. split; [by repeat constructor|discriminate].
Qed.

Lemma WalkDir_ops fs tmpDir ds : forall ops r,
  BuildContext.WalkDir fs tmpDir ds = (ops, r) ->
  Forall (fun o => BuildContext.isRemove o = false) ops
  /\ (r = None ->
      base.filter (fun o => BuildContext.isWrite o = true) ops
      = omap (BuildContext.copyOf tmpDir) ds
      /\ Forall (fun d => BuildContext.walkErr d = None
                          /\ (BuildContext.IsDir d = false ->
                              exists data, BuildContext.content d = inl data)) ds).
Proof.
  induction ds as [|d ds IH]; intros ops r; cbn [BuildContext.WalkDir].
  - intros [= <- <-]. split; [constructor|]. intros _. split; [reflexivity|constructor].
  - destruct (BuildContext.visit fs tmpDir d) as [ops1 [e|]] eqn:Hv;
      destruct (visit_ops _ _ _ _ _ Hv) as [Hr1 Hw1].
    + intros [= <- <-]. split; [exact Hr1|discriminate].
    + destruct (BuildContext.WalkDir fs tmpDir ds) as [ops2 r2] eqn:Hw.
      destruct (IH _ _ eq_refl) as [Hr2 Hw2]. intros [= <- <-].
      split; [now apply Forall_app|]. intros ->.
      destruct (Hw1 eq_refl) as (Hf1 & He1 & Hc1).
      destruct (Hw2 eq_refl) as (Hf2 & Hall).
      split; [|by constructor].
      rewrite filter_app, Hf1, Hf2. cbn [omap list_omap].
      now destruct (BuildContext.copyOf tmpDir d).
Qed.

(** X17: [writeEmbeddedFiles] either hands over the temporary directory
    with no error, having removed nothing and written exactly the regular
    files of the walk, in order, each under its base name right in that
    directory; or it hands over an empty path with an error, and then the
    directory, if it was made, is removed as the last step and only
    once. *)
Theorem writeEmbeddedFiles_all_or_nothing fs :
  let '(ops, (dir, err)) := BuildContext.writeEmbeddedFiles fs in
  match err with
  | None =>
      BuildContext.MkdirTemp fs = inl dir
      /\ base.filter (fun o => BuildContext.isRemove o = true) ops = []
      /\ base.filter (fun o => BuildContext.isWrite o = true) ops
         = omap (BuildContext.copyOf dir) (BuildContext.walked fs)
      /\ Forall (fun d => BuildContext.walkErr d = None
                          /\ (BuildContext.IsDir d = false ->
                              exists data, BuildContext.content d = inl data))
           (BuildContext.walked fs)
  | Some e =>
      dir = ""%string
      /\ match BuildContext.MkdirTemp fs with
         | inr e0 =>
             ops = [BuildContext.OpMkdirTemp] /\ e = Wrap "create temp dir: " e0
         | inl tmpDir =>
             last ops = Some (BuildContext.OpRemoveAll tmpDir)
             /\ base.filter (fun o => BuildContext.isRemove o = true) ops
                = [BuildContext.OpRemoveAll tmpDir]
             /\ exists cause, e = Wrap "extract embedded files: " cause
         end
  end.
Proof.
  assert (forall l, Forall (fun o => BuildContext.isRemove o = false) l ->
            base.filter (fun o => BuildContext.isRemove o = true) l = []) as Hnone.
  { induction 1 as [|o l Ho _ IH]; [reflexivity|].
    rewrite filter_cons_False by congruence. exact IH. }
  unfold BuildContext.writeEmbeddedFiles.
  destruct (BuildContext.MkdirTemp fs) as [tmpDir|e0] eqn:Hmk; [|done].
  destruct (BuildContext.WalkDir fs tmpDir (BuildContext.walked fs))
    as [ops [e|]] eqn:Hw; destruct (WalkDir_ops _ _ _ _ _ Hw) as [Hr Hok].
  - split; [reflexivity|]. split_and!.
    + change (BuildContext.OpMkdirTemp :: ops ++ [BuildContext.OpRemoveAll tmpDir])
        with ((BuildContext.OpMkdirTemp :: ops) ++ [BuildContext.OpRemoveAll tmpDir]).
      apply last_snoc.
    + rewrite filter_cons_False by done. rewrite filter_app, (Hnone _ Hr).
      reflexivity.
    + eauto.
  - destruct (Hok eq_refl) as [Hf Hall]. split_and!; [done| | |exact Hall].
    + rewrite filter_cons_False by done. apply (Hnone _ Hr).
    + rewrite filter_cons_False by done. exact Hf.
Qed.

(** X16: the build context is flat.  The callback of the walk copies a
    regular file that could be read to a name right inside the temporary
    directory: the name is not empty and holds no slash (but for a path
    made of slashes), and for an embedded path [<dir>/<name>] it is
    [<name>], whatever the directory.  Directories are passed over and an
    error of the walk stops it with nothing written. *)
Theorem build_context_is_flat fs tmpDir d data :
  BuildContext.walkErr d = None ->
  BuildContext.IsDir d = false ->
  BuildContext.content d = inl data ->
  (exists name r,
     BuildContext.visit fs tmpDir d
     = ([BuildContext.OpReadFile (BuildContext.path d);
         BuildContext.OpWriteFile (tmpDir +:+ "/" +:+ name) data], r)
     /\ name <> ""%string
     /\ (name = "/"%string
         \/ Forall (fun c => BuildContext.isSlash c = false)
              (list_ascii_of_string name))
     /\ (forall dir file,
         BuildContext.path d = dir +:+ "/" +:+ file ->
         file <> ""%string ->
         Forall (fun c => BuildContext.isSlash c = false) (list_ascii_of_string file) ->
         name = file))
  /\ (forall d',
      BuildContext.walkErr d' = None -> BuildContext.IsDir d' = true ->
      BuildContext.visit fs tmpDir d' = ([], None))
  /\ (forall d' e,
      BuildContext.walkErr d' = Some e ->
      BuildContext.visit fs tmpDir d' = ([], Some e)).
Proof.
  intros Hw Hd Hc. split_and!.
  - destruct (Base_facts (BuildContext.path d)) as (Hne & Hns & _).
    unfold BuildContext.visit. rewrite Hw, Hd, Hc.
    destruct (BuildContext.writeFile_err fs _) as [e|];
      (eexists _, _; split_and!; [reflexivity|exact Hne|exact Hns|]);
      intros dir file -> Hf Hs;
      now destruct (Base_facts file) as (_ & _ & ->).
  - intros d' Hw' Hd'. unfold BuildContext.visit. now rewrite Hw', Hd'.
  - intros d' e Hw'. unfold BuildContext.visit. now rewrite Hw'.
Qed.

Lemma build_context_is_flat_witness :
  let d := {| BuildContext.path := "dockerfiles/Dockerfile.arch";
              BuildContext.IsDir := false;
              BuildContext.walkErr := None;
              BuildContext.content := inl ["F"%byte] |} in
  let fs := {| BuildContext.MkdirTemp := inl "/tmp/linuxformac-build-1"%string;
               BuildContext.walked := [d];
               BuildContext.writeFile_err := fun _ => None |} in
  exists name r,
    BuildContext.visit fs "/tmp/linuxformac-build-1" d
    = ([BuildContext.OpReadFile "dockerfiles/Dockerfile.arch";
        BuildContext.OpWriteFile ("/tmp/linuxformac-build-1" +:+ "/" +:+ name)
          ["F"%byte]], r)
    /\ name <> ""%string
    /\ (name = "/"%string
        \/ Forall (fun c => BuildContext.isSlash c = false)
             (list_ascii_of_string name))
    /\ (forall dir file,
        "dockerfiles/Dockerfile.arch"%string = dir +:+ "/" +:+ file ->
        file <> ""%string ->
        Forall (fun c => BuildContext.isSlash c = false) (list_ascii_of_string file) ->
        name = file).
Proof.
  intros d fs.
  apply (build_context_is_flat fs "/tmp/linuxformac-build-1" d ["F"%byte]);
    reflexivity.
Defined.
